(** * dataloading-mongo: repertoire and rearrangement loaders

    A shallow embedding of [dataload/rearrangement.py] (class
    [Rearrangement]) and [dataload/repertoire.py] (class [Repertoire]),
    with the properties of the gene-call decomposition, the required-field
    validator, the repertoire linkage resolver and the repertoire
    uniqueness/upsert resolver.

    Conventions of the embedding:
    - Python values are the inductive [pyval]; a Python [str] is a Rocq
      [string], one character per code point.
    - A JSON document (Python [dict] with string keys) is a
      [gmap string pyval].
    - [print] and the calls to the repository are recorded, in program
      order, as a list of [event]s; a Python exception is the outcome
      [Raises].  A method that returns [None] returns [PNone].
    - [self] is a record: what the classes inherit from the base class
      [Parser] and reach through it (the mapping service [AIRRMap], the
      [Repository] object), none of which is part of the two files, are
      its fields. *)

From Stdlib Require Import QArith Ascii String.
From stdpp Require Import gmap strings list.

Local Open Scope string_scope.
Local Open Scope list_scope.

(** ** Python values *)

Module Py.

(** A [float]: not-a-number, an infinity, or a finite value (every finite
    double is a rational). *)
Inductive pyfloat : Type :=
| FNaN
| FInf (negative : bool)
| FFinite (q : Q).

#[warnings="-register-all"]
Inductive pyval : Type :=
| PNone
| PBool (b : bool)
| PInt (n : Z)
| PFloat (f : pyfloat)
| PStr (s : string)
| PList (l : list pyval).

(** [np.nan] *)
Definition nan : pyval := PFloat FNaN.

(** The rational a number stands for ([True] is 1, [False] is 0). *)
Definition number (v : pyval) : option Q :=
  match v with
  | PBool b => Some (inject_Z (if b then 1 else 0))
  | PInt n => Some (inject_Z n)
  | PFloat (FFinite q) => Some q
  | _ => None
  end.

Definition float_eq (f g : pyfloat) : bool :=
  match f, g with
  | FInf a, FInf b => Bool.eqb a b
  | FFinite p, FFinite q => Qeq_bool p q
  | _, _ => false
  end.

(** Python's [==]: numbers (bool, int, float) compare by value, [nan]
    equals nothing, strings and [None] compare with themselves only, lists
    element by element. *)
Fixpoint eq (v w : pyval) : bool :=
  match v, w with
  | PNone, PNone => true
  | PStr s, PStr t => bool_decide (s = t)
  | PList l, PList k =>
      (fix eq_list (l k : list pyval) : bool :=
         match l, k with
         | [], [] => true
         | x :: l', y :: k' => eq x y && eq_list l' k'
         | _, _ => false
         end) l k
  | PFloat f, PFloat g => float_eq f g
  | PFloat (FFinite p), (PBool _ | PInt _) =>
      match number w with Some q => Qeq_bool p q | None => false end
  | (PBool _ | PInt _), PFloat (FFinite q) =>
      match number v with Some p => Qeq_bool p q | None => false end
  | (PBool _ | PInt _), (PBool _ | PInt _) =>
      match number v, number w with
      | Some p, Some q => Qeq_bool p q
      | _, _ => false
      end
  | _, _ => false
  end.

(** [v is None] *)
Definition is_None (v : pyval) : bool :=
  match v with PNone => true | _ => false end.

(** Truth value of [v] in a condition. *)
Definition truthy (v : pyval) : bool :=
  match v with
  | PNone => false
  | PBool b => b
  | PInt n => negb (n =? 0)%Z
  | PFloat (FFinite q) => negb (Qeq_bool q 0)
  | PFloat _ => true
  | PStr s => negb (bool_decide (s = EmptyString))
  | PList l => negb (bool_decide (l = []))
  end.

(** [pd.isnull(v)] for a [v] that is not a list. *)
Definition isnull (v : pyval) : bool :=
  match v with
  | PNone | PFloat FNaN => true
  | _ => false
  end.

(** [isinstance] against the classes the loaders test for; [bool] is a
    subclass of [int]. *)
Definition is_str (v : pyval) : bool := match v with PStr _ => true | _ => false end.
Definition is_bool (v : pyval) : bool := match v with PBool _ => true | _ => false end.
Definition is_int (v : pyval) : bool :=
  match v with PBool _ | PInt _ => true | _ => false end.
Definition is_float (v : pyval) : bool := match v with PFloat _ => true | _ => false end.
Definition is_list (v : pyval) : bool := match v with PList _ => true | _ => false end.

End Py.

Import Py.

(** ** Strings *)

(** [s[:n]] *)
Definition str_take (n : nat) (s : string) : string := String.substring 0 n s.

(** [s.startswith(p)] *)
Definition startswith (p s : string) : bool := String.prefix p s.

(** [c in s] for a one-character string [c]. *)
Fixpoint str_contains (c : ascii) (s : string) : bool :=
  match s with
  | EmptyString => false
  | String d s' => bool_decide (c = d) || str_contains c s'
  end.

(** The delimiters of the pattern [',| |\|']. *)
Definition is_delimiter (c : ascii) : bool :=
  bool_decide (c = ","%char) || bool_decide (c = " "%char) || bool_decide (c = "|"%char).

(** [re.split(',| |\|', s)]: cut at every delimiter; adjacent delimiters
    and delimiters at either end give empty tokens, and the result always
    has at least one token. *)
Fixpoint re_split (s : string) : list string :=
  match s with
  | EmptyString => [EmptyString]
  | String c s' =>
      if is_delimiter c then EmptyString :: re_split s'
      else match re_split s' with
           | [] => [String c EmptyString]
           | t :: ts => String c t :: ts
           end
  end.

(** ** Effects: the trace of prints and repository calls, and exceptions *)

Abbreviation dict := (gmap string pyval).

(** What a method does to the outside world, in program order.  [Print]
    keeps the literal text of the message and the values formatted into
    (or appended to) it; the other events are the calls made to the
    repository, with their arguments. *)
Inductive event : Type :=
| Print (text : string) (args : list pyval)
| GetRepertoireIDs (field value : pyval)
| GetRepertoires (field value : pyval)
| InsertRepertoire (doc : dict) (link_field : pyval)
| UpdateRepertoire (link_field link_value : pyval) (doc : dict)
| UpdateField (search_field search_value update_field update_value : pyval).

Inductive exn : Type :=
| KeyError (key : pyval)
| IndexError
| NameError (name : string)
| TypeError
| ValueError.

Inductive outcome (A : Type) : Type :=
| Returns (a : A)
| Raises (e : exn).
Arguments Returns {A} a.
Arguments Raises {A} e.

Definition Eff (A : Type) : Type := (list event * outcome A)%type.

Definition ret {A} (a : A) : Eff A := ([], Returns a).

Definition bind {A B} (m : Eff A) (k : A → Eff B) : Eff B :=
  match m with
  | (t, Returns a) => let '(t', r) := k a in (t ++ t', r)
  | (t, Raises e) => (t, Raises e)
  end.

Definition emit (e : event) : Eff unit := ([e], Returns tt).
Definition raise {A} (e : exn) : Eff A := ([], Raises e).
Definition print (text : string) (args : list pyval) : Eff unit :=
  emit (Print text args).

Declare Scope eff_scope.
Delimit Scope eff_scope with eff.
Bind Scope eff_scope with Eff.
Notation "x ← y ; z" := (bind y (λ x, z))
  (at level 20, y at level 100, z at level 200, only parsing) : eff_scope.
Notation "x ;; z" := (bind x (λ _, z))
  (at level 100, z at level 200, only parsing, right associativity) : eff_scope.
Local Open Scope eff_scope.

(** The computation [m] once the events [t] have happened. *)
Definition after {A} (t : list event) (m : Eff A) : Eff A := (t ++ m.1, m.2).

(** [if c: body] with no [else]. *)
Definition when (c : bool) (body : Eff unit) : Eff unit :=
  if c then body else ret tt.

(** [for x in l: s = body(s, x)] *)
Fixpoint for_each {A S} (body : S → A → Eff S) (l : list A) (s : S) : Eff S :=
  match l with
  | [] => ret s
  | x :: l' => s' ← body s x; for_each body l' s'
  end.

(** ** Dicts with string keys (JSON documents, rows of the mapping table)

    The key looked up is any value: a field name that the mapping does not
    know is [None], which no document has as a key. *)

Definition dict_lookup (k : pyval) (d : dict) : option pyval :=
  match k with
  | PStr s => d !! s
  | _ => None
  end.

(** [k in d] *)
Definition dict_has (k : pyval) (d : dict) : bool :=
  bool_decide (is_Some (dict_lookup k d)).

(** [d[k]] *)
Definition dict_get (k : pyval) (d : dict) : Eff pyval :=
  match dict_lookup k d with
  | Some v => ret v
  | None => raise (KeyError k)
  end.

(** [d[k] = v]; only a string can be the key of a JSON document. *)
Definition dict_set (k : pyval) (v : pyval) (d : dict) : Eff dict :=
  match k with
  | PStr s => ret (<[s := v]> d)
  | _ => raise TypeError
  end.

(** ** Batches: a pandas [DataFrame]

    A frame has [df_len] rows and labelled columns of [df_len] cells.
    Labels are compared as pandas compares them: with [==], and a missing
    label ([nan]) is equal to itself. *)

Record DataFrame : Type := {
  df_len : nat;
  df_columns : list (pyval * list pyval)
}.

Definition label_eq (k l : pyval) : bool :=
  Py.eq k l || (isnull k && isnull l && negb (is_None k) && negb (is_None l)).

(** [label in dataframe], [label in dataframe.columns] *)
Definition df_has (label : pyval) (df : DataFrame) : bool :=
  existsb (λ c, label_eq label c.1) (df_columns df).

(** The column under a label, if there is one. *)
Definition df_column (label : pyval) (df : DataFrame) : option (list pyval) :=
  snd <$> find (λ c, label_eq label c.1) (df_columns df).

(** Replace the column under [label], or append a new one. *)
Fixpoint put_column (label : pyval) (cells : list pyval)
    (cols : list (pyval * list pyval)) : list (pyval * list pyval) :=
  match cols with
  | [] => [(label, cells)]
  | c :: cols' =>
      if label_eq label c.1 then (c.1, cells) :: cols'
      else c :: put_column label cells cols'
  end.

(** [dataframe[label] = value]: a scalar fills the column; a list must
    have one cell per row, except that a frame without rows takes its
    rows from the list. *)
Definition df_set (label value : pyval) (df : DataFrame) : Eff DataFrame :=
  match value with
  | PList cells =>
      if (df_len df =? 0)%nat && negb (length cells =? 0)%nat then
        ret {| df_len := length cells;
               df_columns :=
                 put_column label cells
                   ((λ c, (c.1, replicate (length cells) nan)) <$> df_columns df) |}
      else if (length cells =? df_len df)%nat then
        ret {| df_len := df_len df;
               df_columns := put_column label cells (df_columns df) |}
      else raise ValueError
  | _ =>
      ret {| df_len := df_len df;
             df_columns :=
               put_column label (replicate (df_len df) value) (df_columns df) |}
  end.

(** ** [self]: the base class [Parser] and what it gives access to *)

(** [self.repository]: the methods of the repository whose answers the
    loaders use.  [updateField] returns nothing that is used; it appears
    as an event only. *)
Record Repository : Type := {
  updateOnly : bool;
  getRepertoires : pyval → pyval → list dict;
  insertRepertoire : dict → pyval → pyval;
  updateRepertoire : pyval → pyval → dict → pyval
}.

(** [getMapping field from to class] is
    [self.getAIRRMap().getMapping(field, from, to, class)], [class] being
    the optional last argument; it answers [None] for a field it does not
    know.  [getDateTimeNowUTC n] is the result of the [n]-th call of
    [self.getDateTimeNowUTC()] in a method. *)
Record Parser : Type := {
  verbose : bool;
  getAIRRTag : string;
  getiReceptorTag : string;
  getRepositoryTag : string;
  getRepertoireClass : string;
  getMapping : string → string → string → option string → pyval;
  getRepertoireLinkIDField : string;
  getRearrangementLinkIDField : string;
  getRearrangementFileField : string;
  getRearrangementCountField : string;
  repositoryGetRepertoireIDs : pyval → pyval → option (list pyval);
  repositoryGetRepertoires : pyval → pyval → list dict;
  getDateTimeNowUTC : nat → pyval;
  repository : Repository
}.

(** ** [class Rearrangement] *)

Module Rearrangement.

(** [getRepertoireInfo(self, filename)].  The message printed when the
    file field has no mapping names a variable, [rerrangement_file_field],
    that does not exist: the method raises [NameError] there. *)
Definition getRepertoireInfo (self : Parser) (filename : pyval) : Eff pyval :=
  let repository_tag := getRepositoryTag self in
  let ireceptor_tag := getiReceptorTag self in
  let rearrangement_file_field := getRearrangementFileField self in
  let file_field := getMapping self rearrangement_file_field ireceptor_tag repository_tag None in
  if is_None file_field then
    raise (NameError "rerrangement_file_field")
  else
    when (verbose self)
      (print "Info: Retrieving repertoire for file %s from repository field %s"
         [filename; file_field]);;
    emit (GetRepertoireIDs file_field filename);;
    match repositoryGetRepertoireIDs self file_field filename with
    | None =>
        print "ERROR: could not find file %s in field %s" [filename; file_field];;
        ret PNone
    | Some idarray =>
        let num_repertoires := length idarray in
        if (num_repertoires =? 0)%nat then
          print "ERROR: Could not find repertoire in repository for file %s" [filename];;
          print "ERROR: No repertoire could be associated with this annotation file." [];;
          ret PNone
        else if (1 <? num_repertoires)%nat then
          print "ERROR: More than one repertoire (%d) found using file %s"
            [PInt (Z.of_nat num_repertoires); filename];;
          print "ERROR: Unique assignment of annotations to a single repertoire required." [];;
          ret PNone
        else
          match idarray with
          | repertoire_link_id :: _ => ret repertoire_link_id
          | [] => raise IndexError
          end
    end.

(** [row["airr_required"] == "TRUE" or row["airr_required"] == True] *)
Definition row_required (row : dict) : Eff bool :=
  required ← dict_get (PStr "airr_required") row;
  if Py.eq required (PStr "TRUE") then ret true
  else
    required ← dict_get (PStr "airr_required") row;
    ret (Py.eq required (PBool true)).

(** One iteration of the loop of [checkAIRRRequired]: [None] when the
    iteration executes [return False], and otherwise the frame as the
    iteration leaves it. *)
Definition checkAIRRRequired_body (self : Parser) (dataframe : DataFrame)
    (row : dict) : Eff (option DataFrame) :=
  required ← row_required row;
  if required then
    repository_field ← dict_get (PStr (getRepositoryTag self)) row;
    if negb (df_has repository_field dataframe) then
      nullable ← dict_get (PStr "airr_nullable") row;
      if truthy nullable then
        airr_field ← dict_get (PStr (getAIRRTag self)) row;
        print "Warning: Nullable required AIRR field %s missing, setting to null"
          [airr_field];;
        dataframe ← df_set repository_field nan dataframe;
        ret (Some dataframe)
      else
        airr_field ← dict_get (PStr (getAIRRTag self)) row;
        print "ERROR: Required AIRR field %s (%s) missing"
          [airr_field; repository_field];;
        ret None
    else ret (Some dataframe)
  else ret (Some dataframe).

(** [checkAIRRRequired(self, dataframe, airr_fields)]: [airr_fields] is the
    list of the rows of the mapping table, in the order of [iterrows()].
    The frame is changed in place; the result is the value returned
    together with the frame as the method leaves it. *)
Fixpoint checkAIRRRequired (self : Parser) (dataframe : DataFrame)
    (airr_fields : list dict) : Eff (bool * DataFrame) :=
  match airr_fields with
  | [] => ret (true, dataframe)
  | row :: rest =>
      next ← checkAIRRRequired_body self dataframe row;
      match next with
      | Some dataframe => checkAIRRRequired self dataframe rest
      | None => ret (false, dataframe)
      end
  end.

(** The three [if not field is None: ...] blocks at the end of
    [checkIDFields]. *)
Definition set_id_field (field : pyval) (repertoire : dict)
    (repertoire_link_id : pyval) (dataframe : DataFrame) : Eff DataFrame :=
  if negb (is_None field) then
    if dict_has field repertoire then
      value ← dict_get field repertoire;
      df_set field value dataframe
    else df_set field repertoire_link_id dataframe
  else ret dataframe.

(** [checkIDFields(self, dataframe, repertoire_link_id)] *)
Definition checkIDFields (self : Parser) (dataframe : DataFrame)
    (repertoire_link_id : pyval) : Eff (bool * DataFrame) :=
  let repertoire_link_field := getRepertoireLinkIDField self in
  let rep_id_field :=
    getMapping self "repertoire_id" (getAIRRTag self) (getRepositoryTag self)
      (Some (getRepertoireClass self)) in
  let data_id_field :=
    getMapping self "data_processing_id" (getAIRRTag self) (getRepositoryTag self)
      (Some (getRepertoireClass self)) in
  let sample_id_field :=
    getMapping self "sample_processing_id" (getAIRRTag self) (getRepositoryTag self)
      (Some (getRepertoireClass self)) in
  if df_has rep_id_field dataframe then
    print "ERROR: Can not load data with preset field %s" [rep_id_field];;
    ret (false, dataframe)
  else if df_has data_id_field dataframe then
    print "ERROR: Can not load data with preset field %s" [data_id_field];;
    ret (false, dataframe)
  else if df_has sample_id_field dataframe then
    print "ERROR: Can not load data with preset field %s" [sample_id_field];;
    ret (false, dataframe)
  else
    emit (GetRepertoires (PStr repertoire_link_field) repertoire_link_id);;
    let repertoires :=
      getRepertoires (repository self) (PStr repertoire_link_field) repertoire_link_id in
    if negb (length repertoires =? 1)%nat then
      print "ERROR: Could not find unique repertoire for id %s" [repertoire_link_id];;
      ret (false, dataframe)
    else
      match repertoires with
      | [] => raise IndexError
      | repertoire :: _ =>
          dataframe ← set_id_field rep_id_field repertoire repertoire_link_id dataframe;
          dataframe ← set_id_field data_id_field repertoire repertoire_link_id dataframe;
          dataframe ← set_id_field sample_id_field repertoire repertoire_link_id dataframe;
          ret (true, dataframe)
      end.

Section SetGene.

(** [list(set(l))]: the distinct elements of [l] in the iteration order
    of the set, which Python leaves open. *)
Variable list_of_set : list string → list string.

(** The body of the loop of [setGene]: what one token adds to
    [gene_list]. *)
Definition setGene_token (locus_with_chain current_gene : string) : list string :=
  if startswith "IG" current_gene || startswith "TR" current_gene then
    [current_gene]
  else if str_contains "-"%char current_gene then
    [locus_with_chain +:+ current_gene]
  else [].

(** [setGene(gene)] *)
Definition setGene (gene : pyval) : list string :=
  match gene with
  | PStr g =>
      if bool_decide (g = EmptyString) then []
      else
        let gene_string := re_split g in
        let gene_orig_list := list_of_set gene_string in
        if (length gene_orig_list =? 0)%nat then []
        else
          let locus_with_chain := String.substring 0 4 g in
          flat_map (setGene_token locus_with_chain) gene_orig_list
  | _ => []
  end.

End SetGene.

Definition warn_invalid_v_call (v_call : string) : event :=
  Print "Warning: Attempting to set locus fron invalid v_call " [PStr v_call].
Definition warn_inconsistent_loci (v_call_array : list string) : event :=
  Print "Warning: Inconsistent loci across " [PList (PStr <$> v_call_array)].
Definition warn_non_IG_TR (v_call_array : list string) : event :=
  Print "Warning: locus with non IG and non TR found in " [PList (PStr <$> v_call_array)].

(** One iteration of the loop of [getLocus]. *)
Definition getLocus_body (v_call_array : list string)
    (final_locus v_call : string) : Eff string :=
  if negb (String.length final_locus =? 3)%nat then
    if (3 <? String.length v_call)%nat then ret (str_take 3 v_call)
    else emit (warn_invalid_v_call v_call);; ret final_locus
  else if negb (bool_decide (str_take 3 v_call = final_locus)) then
    emit (warn_inconsistent_loci v_call_array);; ret final_locus
  else ret final_locus.

(** The sanity check after the loop. *)
Definition non_IG_TR (final_locus : string) : bool :=
  (String.length final_locus =? 3)%nat
  && negb (bool_decide (str_take 2 final_locus = "IG"))
  && negb (bool_decide (str_take 2 final_locus = "TR")).

(** [getLocus(v_call_array)] *)
Definition getLocus (v_call_array : list string) : Eff string :=
  final_locus ← for_each (getLocus_body v_call_array) v_call_array EmptyString;
  when (non_IG_TR final_locus) (emit (warn_non_IG_TR v_call_array));;
  ret final_locus.

(** *** Substrings of a junction ([get_all_substrings], [get_substring]) *)

(** [len(v)] of a string or a list. *)
Definition py_len (v : pyval) : nat :=
  match v with
  | PStr s => String.length s
  | PList l => length l
  | _ => 0%nat
  end.

(** [v[i:j]] of a string or a list, for [i <= j <= len(v)]. *)
Definition py_slice (i j : nat) (v : pyval) : pyval :=
  match v with
  | PStr s => PStr (String.substring i (j - i) s)
  | PList l => PList (take (j - i) (drop i l))
  | _ => v
  end.

(** The pairs [(i, j)] of
    [for i in range(length): for j in range(i + 1, length + 1)], in the
    order of the loops. *)
Definition slice_bounds (length : nat) : list (nat * nat) :=
  flat_map (λ i, (λ j, (i, j)) <$> seq (i + 1) (length - i)) (seq 0 length).

(** [get_all_substrings(string)], as the list of what the generator
    yields.  A float ends the generator at once; [len] raises [TypeError]
    on [None] and on the other numbers. *)
Definition get_all_substrings (string : pyval) : Eff (list pyval) :=
  match string with
  | PFloat _ => ret []
  | PStr _ | PList _ =>
      ret ((λ ij, py_slice ij.1 ij.2 string) <$> slice_bounds (py_len string))
  | _ => raise TypeError
  end.

(** [get_substring(string)] *)
Definition get_substring (string : pyval) : Eff (list pyval) :=
  substrings ← get_all_substrings string;
  ret (filter (λ i, (3 < py_len i)%nat) substrings).

(** *** Gene and family of a call ([setGeneGene], [setGeneFamily]) *)

(** [re.search(pattern, s)] for a pattern whose match, if tried at the
    start of a string, is [anchored]: the match at the leftmost position
    where there is one. *)
Fixpoint re_search {A} (anchored : string → option A) (s : string) : option A :=
  match anchored s with
  | Some m => Some m
  | None =>
      match s with
      | EmptyString => None
      | String _ s' => re_search anchored s'
      end
  end.

(** Group 1 of the pattern of [setGeneGene] (a captured run of
    characters other than a star, then a star) at the start of [s]: the
    characters before the first star. *)
Fixpoint allele_prefix (s : string) : option string :=
  match s with
  | EmptyString => None
  | String c s' =>
      if bool_decide (c = "*"%char) then Some EmptyString
      else String c <$> allele_prefix s'
  end.

(** Group 1 of the pattern of [setGeneFamily] (a captured run of
    characters other than a star, a caret and a hyphen, then a star or a
    hyphen) at the start of [s]: the run can only end at its first star,
    caret or hyphen, and a caret there is no match. *)
Fixpoint family_prefix (s : string) : option string :=
  match s with
  | EmptyString => None
  | String c s' =>
      if bool_decide (c = "*"%char) || bool_decide (c = "-"%char) then Some EmptyString
      else if bool_decide (c = "^"%char) then None
      else String c <$> family_prefix s'
  end.

(** [if x not in l: l.append(x)] *)
Definition append_new (x : string) (l : list string) : list string :=
  if bool_decide (x ∈ l) then l else l ++ [x].

(** [setGeneGene(gene_array)] *)
Definition setGeneGene (gene_array : list string) : list string :=
  foldl (λ gene_gene gene,
           match re_search allele_prefix gene with
           | None => append_new gene gene_gene
           | Some group1 => append_new group1 gene_gene
           end) [] gene_array.

(** [setGeneFamily(gene_array)] *)
Definition setGeneFamily (gene_array : list string) : list string :=
  foldl (λ gene_family gene,
           match re_search family_prefix gene with
           | None => append_new gene gene_family
           | Some group1 => append_new group1 gene_family
           end) [] gene_array.

(** *** [processGene] *)

(** [dataframe[label]]: the column, [KeyError] without it. *)
Definition df_get (label : pyval) (df : DataFrame) : Eff (list pyval) :=
  match df_column label df with
  | Some cells => ret cells
  | None => raise (KeyError label)
  end.

(** [dataframe[label] = series], for a series with the rows of the
    frame. *)
Definition df_set_series (label : pyval) (cells : list pyval) (df : DataFrame)
    : DataFrame :=
  {| df_len := df_len df; df_columns := put_column label cells (df_columns df) |}.

(** The strings a cell gives when [setGeneGene] or [setGeneFamily]
    iterates over it: the elements of a list of strings, the characters
    of a string; anything else raises [TypeError]. *)
Definition iterate_strings (cell : pyval) : Eff (list string) :=
  match cell with
  | PList elements =>
      for_each (λ seen element,
                  match element with
                  | PStr s => ret (seen ++ [s])
                  | _ => raise TypeError
                  end) elements []
  | PStr s => ret ((λ c, String c EmptyString) <$> list_ascii_of_string s)
  | _ => raise TypeError
  end.

(** [series.apply(f)] for an [f] from strings to a list of strings. *)
Definition apply_to_calls (f : list string → list string) (cells : list pyval)
    : Eff (list pyval) :=
  for_each (λ done cell,
              strings ← iterate_strings cell;
              ret (done ++ [PList (PStr <$> f strings)])) cells [].

Section ProcessGene.

Variable list_of_set : list string → list string.

(** [processGene(self, dataframe, base_tag, call_tag, gene_tag,
    family_tag)]; the result is the frame as the method leaves it. *)
Definition processGene (self : Parser) (dataframe : DataFrame)
    (base_tag call_tag gene_tag family_tag : string) : Eff DataFrame :=
  if df_has (PStr base_tag) dataframe then
    when (verbose self)
      (print "Info: Constructing %s array from %s" [PStr call_tag; PStr base_tag]);;
    base ← df_get (PStr base_tag) dataframe;
    let dataframe :=
      df_set_series (PStr call_tag)
        ((λ cell, PList (PStr <$> setGene list_of_set cell)) <$> base) dataframe in
    when (verbose self)
      (print "Info: Constructing %s from %s" [PStr gene_tag; PStr base_tag]);;
    calls ← df_get (PStr call_tag) dataframe;
    genes ← apply_to_calls setGeneGene calls;
    let dataframe := df_set_series (PStr gene_tag) genes dataframe in
    when (verbose self)
      (print "Info: Constructing %s from %s" [PStr family_tag; PStr base_tag]);;
    calls ← df_get (PStr call_tag) dataframe;
    families ← apply_to_calls setGeneFamily calls;
    ret (df_set_series (PStr family_tag) families dataframe)
  else ret dataframe.

End ProcessGene.

(** *** Notions for the statements about genes and families *)

(** What [setGeneGene] keeps of one call, and [setGeneFamily]. *)
Definition gene_of (call : string) : string :=
  default call (re_search allele_prefix call).

Definition family_of (call : string) : string :=
  default call (re_search family_prefix call).

(** The distinct elements of a list, each at its first occurrence. *)
Definition first_seen (l : list string) : list string :=
  reverse (remove_dups (reverse l)).

End Rearrangement.

(** ** [class Repertoire] *)

Module Repertoire.

(** [str(type(value))] *)
Definition type_name (value : pyval) : string :=
  match value with
  | PNone => "<class 'NoneType'>"
  | PBool _ => "<class 'bool'>"
  | PInt _ => "<class 'int'>"
  | PFloat _ => "<class 'float'>"
  | PStr _ => "<class 'str'>"
  | PList _ => "<class 'list'>"
  end.

(** [validAIRRFieldType(self, key, value, strict)].  The chain of
    [isinstance] tests is [type_test]; the loop over the elements of a
    list value is the inner [fix]. *)
Fixpoint validAIRRFieldType (self : Parser) (key : string) (value : pyval)
    (strict : bool) {struct value} : Eff bool :=
  let field_type :=
    getMapping self key (getAIRRTag self) "airr_type" (Some (getRepertoireClass self)) in
  let field_nullable :=
    getMapping self key (getAIRRTag self) "airr_nullable" (Some (getRepertoireClass self)) in
  let is_array :=
    getMapping self key (getAIRRTag self) "airr_is_array" (Some (getRepertoireClass self)) in
  if is_None field_type then
    if strict then ret false else ret true
  else if negb (is_list value) && isnull value
          && (Py.eq field_nullable PNone || truthy field_nullable) then
    ret true
  else
    valid_type ←
      (if is_str value && Py.eq field_type (PStr "string") then ret true
       else if is_bool value && Py.eq field_type (PStr "boolean") then ret true
       else if is_int value && Py.eq field_type (PStr "integer") then ret true
       else if (is_float value || is_int value) && Py.eq field_type (PStr "number") then
         ret true
       else
         match value with
         | PList elements =>
             if truthy is_array then
               (fix each (elements : list pyval) (valid_type : bool) : Eff bool :=
                  match elements with
                  | [] => ret valid_type
                  | element :: elements' =>
                      ok ← validAIRRFieldType self key element strict;
                      each elements' (if ok then valid_type else false)
                  end) elements true
             else ret false
         | _ => ret false
         end);
    when (verbose self)
      (if negb (is_list value) && isnull value then
         print "Info: Field %s type ERROR, null value, field is non-nullable" [PStr key]
       else if negb valid_type then
         print "Info: Field %s type ERROR, expected %s, got %s"
           [PStr key; field_type; PStr (type_name value)]
       else ret tt);;
    ret valid_type.

Section RepositoryInsert.

(** Python's builtin [str], as applied to a record identifier. *)
Variable str : pyval → string.

Variable self : Parser.

(** The three blocks that read an identifier of the incoming document:
    the value of the field, or [None] when the field is absent or is the
    empty string. *)
Definition incoming_id (field : pyval) (json_document : dict) : Eff pyval :=
  if dict_has field json_document then
    value ← dict_get field json_document;
    if Py.eq value (PStr EmptyString) then ret PNone else ret value
  else ret PNone.

(** [study = "NULL" if not tag in json_document else json_document[tag]] *)
Definition label_of (tag : pyval) (json_document : dict) : Eff pyval :=
  if negb (dict_has tag json_document) then ret (PStr "NULL")
  else dict_get tag json_document.

(** The names and values a run of [repositoryInsertRepertoire] has in
    hand once it has read the incoming identifiers. *)
Record locals : Type := {
  link_repository_field : pyval;
  rep_id_field : pyval;
  data_id_field : pyval;
  sample_id_field : pyval;
  repertoire_id : pyval;
  data_processing_id : pyval;
  sample_processing_id : pyval;
  study : pyval;
  sample : pyval;
  file_names : pyval
}.

(** The test of the [if] inside the update loop; [and] evaluates its
    operands left to right and stops at the first false one. *)
Definition same_triple (l : locals) (rep : dict) : Eff bool :=
  stored ← dict_get (sample_id_field l) rep;
  if Py.eq stored (sample_processing_id l) then
    stored ← dict_get (data_id_field l) rep;
    if Py.eq stored (data_processing_id l) then
      stored ← dict_get (rep_id_field l) rep;
      ret (Py.eq stored (repertoire_id l))
    else ret false
  else ret false.

(** The loop of the update branch for more than one repertoire.  The
    result is [None] when the loop executes [return None], and
    otherwise the value of [link_repository_value] after the loop. *)
Fixpoint update_target (l : locals) (rep_array : list dict)
    (link_repository_value : pyval) : Eff (option pyval) :=
  match rep_array with
  | [] => ret (Some link_repository_value)
  | rep :: rest =>
      found ← same_triple l rep;
      if found then
        if Py.eq link_repository_value PNone then
          link_repository_value ← dict_get (link_repository_field l) rep;
          update_target l rest link_repository_value
        else
          print "ERROR: Found more than one repertoire with:" [];;
          print "ERROR:     repertoire_id = %s" [repertoire_id l];;
          print "ERROR:     sample_processing_id = %s" [sample_processing_id l];;
          print "ERROR:     data_processing_id = %s" [data_processing_id l];;
          ret None
      else update_target l rest link_repository_value
  end.

(** The branch [if self.repository.updateOnly():]. *)
Definition update_branch (l : locals) (json_document : dict)
    (rep_array : list dict) : Eff pyval :=
  let num_repertoires := length rep_array in
  if (num_repertoires =? 0)%nat then
    print "ERROR: Could not find Reperotire %s to update" [repertoire_id l];;
    ret PNone
  else
    target ←
      (if (num_repertoires =? 1)%nat then
         match rep_array with
         | rep :: _ =>
             link_repository_value ← dict_get (link_repository_field l) rep;
             ret (Some link_repository_value)
         | [] => raise IndexError
         end
       else if (1 <? num_repertoires)%nat then
         update_target l rep_array PNone
       else raise (NameError "link_repository_value"));
    match target with
    | None => ret PNone
    | Some link_repository_value =>
        let json_document :=
          <["ir_updated_at" := getDateTimeNowUTC self 0]> json_document in
        when (verbose self)
          (print "Info: Updating Repertoire:" [];;
           print "Info:     %s = %s" [link_repository_field l; link_repository_value];;
           print "Info:     %s = %s" [rep_id_field l; repertoire_id l];;
           print "Info:     %s = %s" [data_id_field l; data_processing_id l];;
           print "Info:     %s = %s" [sample_id_field l; sample_processing_id l]);;
        emit (UpdateRepertoire (link_repository_field l) link_repository_value
                json_document);;
        ret (updateRepertoire (repository self) (link_repository_field l)
               link_repository_value json_document)
    end.

(** The test of each arm of the [if]/[elif] inside the insert loop, for
    the field [field] whose incoming value is [incoming]:
    [field in rep and not rep[field] == incoming and not rep[field] == ''
     and not incoming is None and not incoming == '']. *)
Definition differs (field incoming : pyval) (rep : dict) : bool :=
  match dict_lookup field rep with
  | Some stored =>
      negb (Py.eq stored incoming)
      && negb (Py.eq stored (PStr EmptyString))
      && negb (is_None incoming)
      && negb (Py.eq incoming (PStr EmptyString))
  | None => false
  end.

(** One iteration of the insert loop, on the flag [duplicate]. *)
Definition duplicate_step (l : locals) (duplicate : bool) (rep : dict) : bool :=
  if differs (data_id_field l) (data_processing_id l) rep then false
  else if differs (sample_id_field l) (sample_processing_id l) rep then false
  else duplicate.

(** The block [if not num_repertoires == 0:] of the insert branch.  The
    result is [false] when the block executes [return None].  After the
    loop, [rep] is the last repertoire of [rep_array]; the last three
    messages read its fields without a test. *)
Definition confirm_unique (l : locals) (rep_array : list dict) : Eff bool :=
  if negb (length rep_array =? 0)%nat then
    let duplicate := foldl (duplicate_step l) true rep_array in
    if duplicate then
      print "ERROR: Unable to confirm uniqieness of repertoire in repository" [];;
      print "ERROR:     Write failed for study '%s', sample '%s'" [study l; sample l];;
      print "ERROR:     Trying to write a record with fields:" [];;
      print "ERROR:         %s = %s" [rep_id_field l; repertoire_id l];;
      print "ERROR:         %s = %s" [data_id_field l; data_processing_id l];;
      print "ERROR:         %s = %s" [sample_id_field l; sample_processing_id l];;
      print "ERROR:     Unable to differentiate from repository record:" [];;
      match last rep_array with
      | Some rep =>
          stored ← dict_get (rep_id_field l) rep;
          print "ERROR:         %s = %s" [rep_id_field l; stored];;
          stored ← dict_get (data_id_field l) rep;
          print "ERROR:         %s = %s" [data_id_field l; stored];;
          stored ← dict_get (sample_id_field l) rep;
          print "ERROR:         %s = %s" [sample_id_field l; stored];;
          ret false
      | None => raise (NameError "rep")
      end
    else ret true
  else ret true.

(** [if id is None: self.repository.updateField(link, record_id, field,
    str(record_id))] *)
Definition write_back (l : locals) (record_id id field : pyval) : Eff unit :=
  when (is_None id)
    (emit (UpdateField (link_repository_field l) record_id field
             (PStr (str record_id)))).

(** The [else] branch: insertion.  The message printed when the count
    field has no mapping names a variable, [repository_tag], that does
    not exist in the method: it raises [NameError]. *)
Definition insert_branch (l : locals) (json_document : dict)
    (rep_array : list dict) : Eff pyval :=
  unique ← confirm_unique l rep_array;
  if negb unique then ret PNone
  else
    let json_document := <["ir_updated_at" := getDateTimeNowUTC self 0]> json_document in
    let json_document := <["ir_created_at" := getDateTimeNowUTC self 1]> json_document in
    let rearrangement_count_field := getRearrangementCountField self in
    let count_field :=
      getMapping self rearrangement_count_field (getiReceptorTag self)
        (getRepositoryTag self) None in
    json_document ←
      (if is_None count_field then raise (NameError "repository_tag")
       else dict_set count_field (PInt 0) json_document);
    emit (InsertRepertoire json_document (link_repository_field l));;
    let record_id :=
      insertRepertoire (repository self) json_document (link_repository_field l) in
    if is_None record_id then
      print "ERROR: Unable to write repertoire record to repository" [];;
      ret PNone
    else
      write_back l record_id (repertoire_id l) (rep_id_field l);;
      write_back l record_id (data_processing_id l) (data_id_field l);;
      write_back l record_id (sample_processing_id l) (sample_id_field l);;
      (* [if self.verbose:] tests the method itself, which is always true *)
      print "Info: Successfully wrote repertoire record <%s, %s, %s>"
        [study l; sample l; file_names l];;
      ret record_id.

(** [repositoryInsertRepertoire(self, json_document)] *)
Definition repositoryInsertRepertoire (json_document : dict) : Eff pyval :=
  let rearrangement_file_field := getRearrangementFileField self in
  let file_repository_field :=
    getMapping self rearrangement_file_field (getiReceptorTag self)
      (getRepositoryTag self) None in
  let link_field := getRepertoireLinkIDField self in
  let link_repository_field :=
    getMapping self link_field (getiReceptorTag self) (getRepositoryTag self) None in
  file_names ← dict_get file_repository_field json_document;
  idarray ←
    (if is_None file_names || Py.eq file_names (PStr EmptyString) then
       print "Warning: Repertoire does not have any rearrangement files." [];;
       print "Warning:     Will not be able to link rearrangements to this repertoire" [];;
       ret (Some [])
     else
       emit (GetRepertoireIDs file_repository_field file_names);;
       ret (repositoryGetRepertoireIDs self file_repository_field file_names));
  match idarray with
  | None =>
      print "ERROR: Unable to check for repertoire existance for file %s" [file_names];;
      print "ERROR:     Repertoires must have valid rearrangement files." [];;
      print "ERROR:     Rearrangement files must be unique in the repository." [];;
      ret PNone
  | Some idarray =>
      let num_repertoires := length idarray in
      let study_tag :=
        getMapping self "study_id" (getiReceptorTag self) (getRepositoryTag self) None in
      study ← label_of study_tag json_document;
      let sample_tag :=
        getMapping self "sample_id" (getiReceptorTag self) (getRepositoryTag self) None in
      sample ← label_of sample_tag json_document;
      if negb (updateOnly (repository self)) && negb (num_repertoires =? 0)%nat then
        print "ERROR: Unable to write repertoire, already exists in the repository" [];;
        print "ERROR:     Write failed for study '%s', sample '%s'" [study; sample];;
        print "ERROR:     File field %s contains rearrangement files %s"
          [PStr rearrangement_file_field; file_names];;
        print "ERROR:     Files found in records with record IDs %s" [PList idarray];;
        ret PNone
      else
        let rep_id_field :=
          getMapping self "repertoire_id" (getAIRRTag self) (getRepositoryTag self)
            (Some (getRepertoireClass self)) in
        if is_None rep_id_field then
          (* the quoted field name of the message is its first value here *)
          print "ERROR: Could not find %s field in mapping (%s -> %s)"
            [PStr "repertoire_id"; PStr (getAIRRTag self); PStr (getRepositoryTag self)];;
          ret PNone
        else
          let data_id_field :=
            getMapping self "data_processing_id" (getAIRRTag self)
              (getRepositoryTag self) (Some (getRepertoireClass self)) in
          let sample_id_field :=
            getMapping self "sample_processing_id" (getAIRRTag self)
              (getRepositoryTag self) (Some (getRepertoireClass self)) in
          repertoire_id ← incoming_id rep_id_field json_document;
          data_processing_id ← incoming_id data_id_field json_document;
          sample_processing_id ← incoming_id sample_id_field json_document;
          emit (GetRepertoires rep_id_field repertoire_id);;
          let rep_array := repositoryGetRepertoires self rep_id_field repertoire_id in
          let l :=
            {| link_repository_field := link_repository_field;
               rep_id_field := rep_id_field;
               data_id_field := data_id_field;
               sample_id_field := sample_id_field;
               repertoire_id := repertoire_id;
               data_processing_id := data_processing_id;
               sample_processing_id := sample_processing_id;
               study := study;
               sample := sample;
               file_names := file_names |} in
          if updateOnly (repository self) then update_branch l json_document rep_array
          else insert_branch l json_document rep_array
  end.

(** *** The values of a run, for the statements below *)

(** The value [incoming_id] reads. *)
Definition id_of (field : pyval) (json_document : dict) : pyval :=
  match dict_lookup field json_document with
  | Some value => if Py.eq value (PStr EmptyString) then PNone else value
  | None => PNone
  end.

(** The value [label_of] reads. *)
Definition label (tag : pyval) (json_document : dict) : pyval :=
  default (PStr "NULL") (dict_lookup tag json_document).

(** The record of locals that [repositoryInsertRepertoire] builds for
    [json_document]. *)
Definition locals_of (json_document : dict) : locals :=
  let name field :=
    getMapping self field (getiReceptorTag self) (getRepositoryTag self) None in
  let id_field field :=
    getMapping self field (getAIRRTag self) (getRepositoryTag self)
      (Some (getRepertoireClass self)) in
  {| link_repository_field := name (getRepertoireLinkIDField self);
     rep_id_field := id_field "repertoire_id";
     data_id_field := id_field "data_processing_id";
     sample_id_field := id_field "sample_processing_id";
     repertoire_id := id_of (id_field "repertoire_id") json_document;
     data_processing_id := id_of (id_field "data_processing_id") json_document;
     sample_processing_id := id_of (id_field "sample_processing_id") json_document;
     study := label (name "study_id") json_document;
     sample := label (name "sample_id") json_document;
     file_names :=
       default PNone (dict_lookup (name (getRearrangementFileField self)) json_document) |}.

(** The field of the document that names its rearrangement files. *)
Definition file_field : pyval :=
  getMapping self (getRearrangementFileField self) (getiReceptorTag self)
    (getRepositoryTag self) None.

(** The incoming document has no file names. *)
Definition no_files (file_names : pyval) : bool :=
  is_None file_names || Py.eq file_names (PStr EmptyString).

(** What the method does before it looks at the repertoire identifiers:
    the query for the files, unless the document has none. *)
Definition file_events (names : pyval) : list event :=
  if no_files names then
    [Print "Warning: Repertoire does not have any rearrangement files." [];
     Print "Warning:     Will not be able to link rearrangements to this repertoire" []]
  else [GetRepertoireIDs file_field names].

(** The repertoires that share the repertoire identifier of the incoming
    document: the set S of the uniqueness check. *)
Definition sharing_repertoire_id (json_document : dict) : list dict :=
  let l := locals_of json_document in
  repositoryGetRepertoires self (rep_id_field l) (repertoire_id l).

(** The write-backs that follow a successful insert. *)
Definition write_backs (l : locals) (record_id : pyval) : list event :=
  let write_back id field :=
    if is_None id
    then [UpdateField (link_repository_field l) record_id field (PStr (str record_id))]
    else [] in
  write_back (repertoire_id l) (rep_id_field l)
  ++ write_back (data_processing_id l) (data_id_field l)
  ++ write_back (sample_processing_id l) (sample_id_field l).

(** The incoming document is distinguishable from the stored record
    [rep]: by its [data_processing_id] or by its [sample_processing_id]. *)
Definition distinguishable (l : locals) (rep : dict) : bool :=
  differs (data_id_field l) (data_processing_id l) rep
  || differs (sample_id_field l) (sample_processing_id l) rep.

(** The stored record [rep] has the triple of the incoming document. *)
Definition triple_equal (l : locals) (rep : dict) : bool :=
  match dict_lookup (sample_id_field l) rep, dict_lookup (data_id_field l) rep,
        dict_lookup (rep_id_field l) rep with
  | Some s, Some d, Some r =>
      Py.eq s (sample_processing_id l) && Py.eq d (data_processing_id l)
      && Py.eq r (repertoire_id l)
  | _, _, _ => false
  end.

(** The stored record [rep] carries the three identifier fields. *)
Definition has_triple (l : locals) (rep : dict) : Prop :=
  is_Some (dict_lookup (sample_id_field l) rep)
  ∧ is_Some (dict_lookup (data_id_field l) rep)
  ∧ is_Some (dict_lookup (rep_id_field l) rep).

(** The document as the insert branch hands it to [insertRepertoire],
    [count] being the repository name of the rearrangement count. *)
Definition stamped (count : string) (json_document : dict) : dict :=
  <[count := PInt 0]>
    (<["ir_created_at" := getDateTimeNowUTC self 1]>
       (<["ir_updated_at" := getDateTimeNowUTC self 0]> json_document)).

End RepositoryInsert.

(** *** Notions for the statements about [validAIRRFieldType] *)

(** [self] with another setting of [verbose]. *)
Definition with_verbose (b : bool) (self : Parser) : Parser :=
  {| verbose := b;
     getAIRRTag := getAIRRTag self;
     getiReceptorTag := getiReceptorTag self;
     getRepositoryTag := getRepositoryTag self;
     getRepertoireClass := getRepertoireClass self;
     getMapping := getMapping self;
     getRepertoireLinkIDField := getRepertoireLinkIDField self;
     getRearrangementLinkIDField := getRearrangementLinkIDField self;
     getRearrangementFileField := getRearrangementFileField self;
     getRearrangementCountField := getRearrangementCountField self;
     repositoryGetRepertoireIDs := repositoryGetRepertoireIDs self;
     repositoryGetRepertoires := repositoryGetRepertoires self;
     getDateTimeNowUTC := getDateTimeNowUTC self;
     repository := repository self |}.

(** The three entries of the mapping that [validAIRRFieldType] reads for
    a key. *)
Definition airr_type (self : Parser) (key : string) : pyval :=
  getMapping self key (getAIRRTag self) "airr_type" (Some (getRepertoireClass self)).
Definition airr_nullable (self : Parser) (key : string) : pyval :=
  getMapping self key (getAIRRTag self) "airr_nullable" (Some (getRepertoireClass self)).
Definition airr_is_array (self : Parser) (key : string) : pyval :=
  getMapping self key (getAIRRTag self) "airr_is_array" (Some (getRepertoireClass self)).

(** The verdict of [validAIRRFieldType] on a value, for a key of type
    [field_type]: the tests of the method without its prints. *)
Fixpoint accepts (field_type field_nullable is_array : pyval) (value : pyval)
    {struct value} : bool :=
  if negb (is_list value) && isnull value
     && (Py.eq field_nullable PNone || truthy field_nullable) then true
  else if is_str value && Py.eq field_type (PStr "string") then true
  else if is_bool value && Py.eq field_type (PStr "boolean") then true
  else if is_int value && Py.eq field_type (PStr "integer") then true
  else if (is_float value || is_int value) && Py.eq field_type (PStr "number") then true
  else
    match value with
    | PList elements =>
        truthy is_array
        && forallb (accepts field_type field_nullable is_array) elements
    | _ => false
    end.

(** A null value passes for this entry of [airr_nullable]: there is no
    entry, or it is true. *)
Definition null_allowed (field_nullable : pyval) : bool :=
  Py.eq field_nullable PNone || truthy field_nullable.

End Repertoire.

(** ** The stored repertoire records *)

Module Store.

(** [record[field] == value], false for a record without the field. *)
Definition matches (field value : pyval) (record : dict) : bool :=
  match dict_lookup field record with
  | Some stored => Py.eq stored value
  | None => false
  end.

Definition set_field (field value : pyval) (record : dict) : dict :=
  match field with
  | PStr f => <[f := value]> record
  | _ => record
  end.

(** Modelled from the spec: the effect of the repository's write calls
    ([insertRepertoire], [updateField], [updateRepertoire] of the class
    [Repository], which is not among the source files) on the stored
    repertoire records.  An insert that succeeds adds the document as a
    new record that carries the assigned storage identifier under the link
    field; [updateField(key_field, key_value, field, value)] sets [field]
    on every record whose [key_field] equals [key_value];
    [updateRepertoire] overwrites the fields of the matching records with
    those of the document. *)
Definition write (repo : Repository) (records : list dict) (e : event) : list dict :=
  match e with
  | InsertRepertoire doc link_field =>
      let record_id := insertRepertoire repo doc link_field in
      if is_None record_id then records
      else records ++ [set_field link_field record_id doc]
  | UpdateField search_field search_value update_field update_value =>
      (λ record, if matches search_field search_value record
                 then set_field update_field update_value record
                 else record) <$> records
  | UpdateRepertoire link_field link_value doc =>
      (λ record, if matches link_field link_value record
                 then doc ∪ record
                 else record) <$> records
  | _ => records
  end.

(** The records after the writes of a trace. *)
Definition commit (repo : Repository) (records : list dict) (trace : list event)
    : list dict :=
  foldl (write repo) records trace.

(** An identifier field of a record holds a value: it is present, is not
    [None] and is not the empty string. *)
Definition has_id (field : pyval) (record : dict) : Prop :=
  ∃ v, dict_lookup field record = Some v
       ∧ is_None v = false
       ∧ Py.eq v (PStr EmptyString) = false.

End Store.

(** ** Predicates on traces *)

Definition is_write (e : event) : bool :=
  match e with
  | InsertRepertoire _ _ | UpdateRepertoire _ _ _ | UpdateField _ _ _ _ => true
  | _ => false
  end.

Definition is_insert (e : event) : bool :=
  match e with InsertRepertoire _ _ => true | _ => false end.

Definition is_query (e : event) : bool :=
  match e with
  | GetRepertoireIDs _ _ | GetRepertoires _ _ => true
  | _ => false
  end.

Definition is_file_query (e : event) : bool :=
  match e with GetRepertoireIDs _ _ => true | _ => false end.

Definition is_print (e : event) : Prop := ∃ text args, e = Print text args.

Definition trace {A} (m : Eff A) : list event := m.1.
Definition result {A} (m : Eff A) : outcome A := m.2.

(** ** A concrete configuration, for examples *)

Module Example.

Definition doc (fields : list (string * pyval)) : dict := list_to_map fields.

(** A mapping table in which every field the loaders ask for keeps its
    name in the repository, the link field is stored as [_id], and only
    the three identifiers have an AIRR type. *)
Definition mapping (field from to : string) (class : option string) : pyval :=
  if String.eqb to "airr_type" then
    if String.eqb field "repertoire_id" || String.eqb field "data_processing_id"
       || String.eqb field "sample_processing_id"
    then PStr "string" else PNone
  else if String.eqb to "airr_nullable" then PBool true
  else if String.eqb to "airr_is_array" then PBool false
  else if String.eqb field "ir_project_sample_id" then PStr "_id"
  else if String.eqb field "repertoire_id" || String.eqb field "data_processing_id"
          || String.eqb field "sample_processing_id" || String.eqb field "study_id"
          || String.eqb field "sample_id" || String.eqb field "ir_rearrangement_file_name"
          || String.eqb field "ir_sequence_count"
  then PStr field
  else PNone.

(** A repository that holds [records]: it answers a query for the
    repertoires with a field value, finds the files of a repertoire by
    equality, and assigns the identifier [new_id] to an inserted
    document. *)
Definition repo (update : bool) (records : list dict) (new_id : pyval) : Repository :=
  {| updateOnly := update;
     getRepertoires := λ field value, filter (λ r, Store.matches field value r = true) records;
     insertRepertoire := λ _ _, new_id;
     updateRepertoire := λ _ link_value _, link_value |}.

Definition parser (update : bool) (records : list dict) (new_id : pyval) : Parser :=
  {| verbose := false;
     getAIRRTag := "airr";
     getiReceptorTag := "ir_id";
     getRepositoryTag := "ir_repository";
     getRepertoireClass := "Repertoire";
     getMapping := mapping;
     getRepertoireLinkIDField := "ir_project_sample_id";
     getRearrangementLinkIDField := "ir_project_sample_id";
     getRearrangementFileField := "ir_rearrangement_file_name";
     getRearrangementCountField := "ir_sequence_count";
     repositoryGetRepertoireIDs := λ field value,
       Some (omap (λ r, if Store.matches field value r then r !! "_id" else None) records);
     repositoryGetRepertoires := λ field value,
       filter (λ r, Store.matches field value r = true) records;
     getDateTimeNowUTC := λ n, PStr "2020-01-01T00:00:00Z";
     repository := repo update records new_id |}.

(** [str] on the identifiers of the examples, which are strings. *)
Definition str (v : pyval) : string :=
  match v with PStr s => s | _ => "None" end.

Definition R1_D1 : dict :=
  doc [("_id", PStr "id1"); ("repertoire_id", PStr "R1");
       ("data_processing_id", PStr "D1"); ("sample_processing_id", PStr "S1");
       ("ir_rearrangement_file_name", PStr "a.tsv")].

Definition R1_D2 : dict :=
  doc [("_id", PStr "id2"); ("repertoire_id", PStr "R1");
       ("data_processing_id", PStr "D2"); ("sample_processing_id", PStr "S1");
       ("ir_rearrangement_file_name", PStr "b.tsv")].

(** A stored record without a [data_processing_id]. *)
Definition R1_bare : dict :=
  doc [("_id", PStr "id3"); ("repertoire_id", PStr "R1");
       ("sample_processing_id", PStr "S1");
       ("ir_rearrangement_file_name", PStr "c.tsv")].

(** Incoming documents. *)
Definition incoming (fields : list (string * pyval)) : dict :=
  doc (("ir_rearrangement_file_name", PStr "z.tsv") :: fields).

(** The identifiers of [R1_bare], in a new file. *)
Definition new_R1_S1 : dict :=
  incoming [("repertoire_id", PStr "R1"); ("sample_processing_id", PStr "S1")].

(** A triple that no stored record has. *)
Definition new_R1_D3 : dict :=
  incoming [("repertoire_id", PStr "R1"); ("data_processing_id", PStr "D3");
            ("sample_processing_id", PStr "S1")].

(** A document with a sample identifier only, and one without files. *)
Definition new_S9 : dict := incoming [("sample_processing_id", PStr "S9")].

Definition new_without_files : dict :=
  doc [("ir_rearrangement_file_name", PStr EmptyString);
       ("repertoire_id", PStr "R7")].

(** A document that names the file of [R1_D1]. *)
Definition new_same_file : dict :=
  doc [("ir_rearrangement_file_name", PStr "a.tsv");
       ("repertoire_id", PStr "R8")].

(** Rows of the rearrangement mapping table. *)
Definition mapping_row (airr repository : string) (required nullable : pyval) : dict :=
  doc [("airr", PStr airr); ("ir_repository", PStr repository);
       ("airr_required", required); ("airr_nullable", nullable)].

Definition batch : DataFrame :=
  {| df_len := 2;
     df_columns := [(PStr "sequence", [PStr "ACGT"; PStr "TTGA"])] |}.

End Example.

(** * Properties *)

(** ** The effect monad *)

Lemma bind_ret_l {A B} (a : A) (k : A → Eff B) : bind (ret a) k = k a.
Proof. unfold bind, ret. destruct (k a) as [t r]. reflexivity. Qed.

Lemma bind_emit {B} (e : event) (k : unit → Eff B) :
  bind (emit e) k = after [e] (k tt).
Proof. unfold bind, emit, after. destruct (k tt) as [t r]. reflexivity. Qed.

Lemma bind_print {B} text args (k : unit → Eff B) :
  bind (print text args) k = after [Print text args] (k tt).
Proof. apply bind_emit. Qed.

Lemma bind_raise {A B} (e : exn) (k : A → Eff B) : bind (raise e) k = raise e.
Proof. reflexivity. Qed.

Lemma bind_pair {A B} (t : list event) (a : A) (k : A → Eff B) :
  bind (t, Returns a) k = after t (k a).
Proof. unfold bind, after. destruct (k a) as [t' r]. reflexivity. Qed.

Lemma bind_after {A B} (t : list event) (m : Eff A) (k : A → Eff B) :
  bind (after t m) k = after t (bind m k).
Proof.
  unfold bind, after. destruct m as [t' [a|e]]; cbn [fst snd]; [|reflexivity].
  destruct (k a) as [t'' r]. cbn [fst snd]. rewrite app_assoc. reflexivity.
Qed.

Lemma after_after {A} (t t' : list event) (m : Eff A) :
  after t (after t' m) = after (t ++ t') m.
Proof. unfold after. cbn [fst snd]. rewrite app_assoc. reflexivity. Qed.

Lemma after_ret {A} (t : list event) (a : A) : after t (ret a) = (t, Returns a).
Proof. unfold after, ret. cbn [fst snd]. rewrite app_nil_r. reflexivity. Qed.

Lemma after_raise {A} (t : list event) (e : exn) :
  after t (@raise A e) = (t, Raises e).
Proof. unfold after, raise. cbn [fst snd]. rewrite app_nil_r. reflexivity. Qed.

Lemma after_pair {A} (t t' : list event) (r : outcome A) :
  after t (t', r) = (t ++ t', r).
Proof. reflexivity. Qed.

Lemma after_nil {A} (m : Eff A) : after [] m = m.
Proof. destruct m; reflexivity. Qed.

Lemma Eff_eta {A} (m : Eff A) : m = (m.1, m.2).
Proof. destruct m; reflexivity. Qed.

Lemma bind_assoc {A B C} (m : Eff A) (k : A → Eff B) (h : B → Eff C) :
  bind (bind m k) h = bind m (λ a, bind (k a) h).
Proof.
  destruct m as [t [a|e]]; [|reflexivity].
  rewrite !bind_pair, bind_after. reflexivity.
Qed.

#[local] Arguments bind : simpl never.
#[local] Arguments ret : simpl never.
#[local] Arguments emit : simpl never.
#[local] Arguments raise : simpl never.
#[local] Arguments print : simpl never.
#[local] Arguments after : simpl never.

(** Normal form of a computation: the binds associated to the right, the
    returns executed and the events at the head collected in front. *)
Ltac eff :=
  repeat first
    [ rewrite bind_assoc
    | rewrite bind_ret_l
    | rewrite bind_emit
    | rewrite bind_print
    | rewrite bind_raise
    | rewrite bind_after
    | rewrite bind_pair
    | rewrite after_after
    | rewrite after_ret
    | rewrite after_raise
    | rewrite after_pair ];
  cbn [app].

(** ** Strings *)

Lemma substring_length_le (n : nat) (s : string) :
  (n ≤ String.length s)%nat → String.length (String.substring 0 n s) = n.
Proof.
  revert s. induction n as [|n IH]; intros [|c s] H; simpl in *;
    try reflexivity; try lia.
  f_equal. apply IH. lia.
Qed.

(** ** Locus derivation *)

Section Locus.

Import Rearrangement.

Variable v_call_array : list string.

(** While no locus is established, an entry of at most three characters
    leaves it so and is reported as invalid. *)
Lemma getLocus_skips_short (pre rest : list string) :
  Forall (λ s, (String.length s ≤ 3)%nat) pre →
  for_each (getLocus_body v_call_array) (pre ++ rest) EmptyString
  = ((warn_invalid_v_call <$> pre)
       ++ (for_each (getLocus_body v_call_array) rest EmptyString).1,
     (for_each (getLocus_body v_call_array) rest EmptyString).2).
Proof.
  induction 1 as [|s pre Hs _ IH]; simpl.
  - apply Eff_eta.
  - unfold getLocus_body at 1. simpl.
    destruct (3 <? String.length s)%nat eqn:E.
    + apply Nat.ltb_lt in E. lia.
    + eff. rewrite IH. reflexivity.
Qed.

(** Once a locus of three characters is established, the rest of the
    loop keeps it and reports every entry whose first three characters
    differ from it. *)
Lemma getLocus_keeps_locus (locus : string) (post : list string) :
  String.length locus = 3%nat →
  for_each (getLocus_body v_call_array) post locus
  = ((λ _, warn_inconsistent_loci v_call_array)
       <$> filter (λ s, str_take 3 s ≠ locus) post,
     Returns locus).
Proof.
  intros Hlen. induction post as [|s post IH]; simpl; [reflexivity|].
  unfold getLocus_body at 1. rewrite Hlen. simpl.
  rewrite filter_cons.
  destruct (decide (str_take 3 s ≠ locus)) as [Hne|Heq].
  - rewrite bool_decide_eq_false_2 by exact Hne. simpl.
    eff. rewrite IH. reflexivity.
  - apply dec_stable in Heq.
    rewrite bool_decide_eq_true_2 by exact Heq. simpl.
    eff. exact IH.
Qed.

End Locus.

(** C6. [getLocus] establishes the locus as the first three characters of
    the first entry longer than three characters (the entries before it
    are reported as invalid); every later entry whose first three
    characters differ only adds the warning of inconsistent loci and the
    established value does not change; the value is returned, with one
    more warning, also when it starts with neither IG nor TR. *)
Theorem getLocus_first_long_entry
    (v_call_array pre post : list string) (v_call : string) :
  v_call_array = pre ++ v_call :: post →
  Forall (λ s, (String.length s ≤ 3)%nat) pre →
  (3 < String.length v_call)%nat →
  Rearrangement.getLocus v_call_array
  = ((Rearrangement.warn_invalid_v_call <$> pre)
       ++ ((λ _, Rearrangement.warn_inconsistent_loci v_call_array)
             <$> filter (λ s, str_take 3 s ≠ str_take 3 v_call) post)
       ++ (if negb (bool_decide (str_take 2 (str_take 3 v_call) = "IG"))
              && negb (bool_decide (str_take 2 (str_take 3 v_call) = "TR"))
           then [Rearrangement.warn_non_IG_TR v_call_array] else []),
     Returns (str_take 3 v_call)).
Proof.
  intros Harr Hpre Hlen.
  assert (Hthree : String.length (str_take 3 v_call) = 3%nat)
    by (apply substring_length_le; lia).
  unfold Rearrangement.getLocus.
  rewrite Harr at 2.
  rewrite (getLocus_skips_short v_call_array pre (v_call :: post) Hpre).
  cbn [for_each]. unfold Rearrangement.getLocus_body at 1 3. simpl String.length.
  cbn [Nat.eqb negb].
  apply Nat.ltb_lt in Hlen. rewrite Hlen. eff.
  rewrite (getLocus_keeps_locus v_call_array _ post Hthree). cbn [fst snd].
  rewrite bind_pair. unfold Rearrangement.non_IG_TR. rewrite Hthree.
  cbn [Nat.eqb andb].
  destruct (negb (bool_decide (str_take 2 (str_take 3 v_call) = "IG"))
            && negb (bool_decide (str_take 2 (str_take 3 v_call) = "TR")));
    unfold when; eff; rewrite <- ?app_assoc, ?app_nil_r; reflexivity.
Qed.

Lemma getLocus_first_long_entry_witness :
  Rearrangement.getLocus ["IG"; "IGHV3-23*01"; "IGKV1-2*01"; "IGHV1-2*01"]
  = ([Rearrangement.warn_invalid_v_call "IG";
      Rearrangement.warn_inconsistent_loci
        ["IG"; "IGHV3-23*01"; "IGKV1-2*01"; "IGHV1-2*01"]],
     Returns "IGH").
Proof.
  apply (getLocus_first_long_entry _ ["IG"] ["IGKV1-2*01"; "IGHV1-2*01"] "IGHV3-23*01").
  - reflexivity.
  - repeat constructor.
  - simpl. lia.
Defined.

(** ** Gene-call decomposition *)

Section SetGeneProofs.

Import Rearrangement.

Variable list_of_set : list string → list string.
Hypothesis list_of_set_NoDup : ∀ l, NoDup (list_of_set l).
Hypothesis list_of_set_elem : ∀ l x, x ∈ list_of_set l ↔ x ∈ l.

Lemma setGene_token_length (locus_with_chain token : string) :
  (length (setGene_token locus_with_chain token) ≤ 1)%nat.
Proof.
  unfold setGene_token.
  destruct (startswith "IG" token || startswith "TR" token);
    [|destruct (str_contains "-" token)]; simpl; lia.
Qed.

(** On a string that is not empty, [setGene] is the loop body applied
    to the deduplicated tokens. *)
Lemma setGene_string (g : string) :
  g ≠ EmptyString →
  setGene list_of_set (PStr g)
  = flat_map (setGene_token (String.substring 0 4 g)) (list_of_set (re_split g)).
Proof.
  intros Hg. unfold setGene. rewrite bool_decide_eq_false_2 by exact Hg.
  destruct (list_of_set (re_split g)) as [|t ts]; reflexivity.
Qed.

Lemma setGene_empty_string : setGene list_of_set (PStr EmptyString) = [].
Proof. reflexivity. Qed.

Lemma elem_of_setGene (g call : string) :
  call ∈ setGene list_of_set (PStr g) ↔
  ∃ token, token ∈ re_split g
           ∧ call ∈ setGene_token (String.substring 0 4 g) token.
Proof.
  destruct (decide (g = EmptyString)) as [->|Hg].
  - rewrite setGene_empty_string. split.
    + intros H. inversion H.
    + intros (token & Htok & Hcall). simpl in Htok.
      apply list_elem_of_singleton in Htok. subst token.
      inversion Hcall.
  - rewrite setGene_string by exact Hg.
    rewrite list_elem_of_In, in_flat_map. split.
    + intros (token & Htok & Hcall). exists token. split.
      * apply list_of_set_elem, list_elem_of_In, Htok.
      * apply list_elem_of_In, Hcall.
    + intros (token & Htok & Hcall). exists token. split.
      * apply list_elem_of_In, list_of_set_elem, Htok.
      * apply list_elem_of_In, Hcall.
Qed.

(** C5. Every element of the call array of [setGene] is a token of the
    input (split on comma, space or pipe, and deduplicated) that starts
    with IG or TR, or the first four characters of the input followed by
    a token that contains a hyphen; each such token is in the array and
    every other token is dropped, so an input without such tokens gives
    the empty array, as does an input that is not a string or is the
    empty string. *)
Theorem setGene_call_array (gene : pyval) :
  (∀ call, call ∈ setGene list_of_set gene →
     ∃ g token, gene = PStr g ∧ token ∈ re_split g ∧
       ((startswith "IG" token || startswith "TR" token = true ∧ call = token)
        ∨ (startswith "IG" token || startswith "TR" token = false
           ∧ str_contains "-" token = true
           ∧ call = String.substring 0 4 g +:+ token)))
  ∧ (∀ g token, gene = PStr g → token ∈ re_split g →
       (startswith "IG" token || startswith "TR" token = true →
          token ∈ setGene list_of_set gene)
       ∧ (startswith "IG" token || startswith "TR" token = false →
          str_contains "-" token = true →
          String.substring 0 4 g +:+ token ∈ setGene list_of_set gene))
  ∧ (∀ g, gene = PStr g → g ≠ EmptyString →
       ∃ tokens, NoDup tokens ∧ (∀ t, t ∈ tokens ↔ t ∈ re_split g)
         ∧ setGene list_of_set gene
           = flat_map (setGene_token (String.substring 0 4 g)) tokens
         ∧ ∀ t, (length (setGene_token (String.substring 0 4 g) t) ≤ 1)%nat)
  ∧ (∀ g, gene = PStr g →
       (∀ token, token ∈ re_split g →
          startswith "IG" token || startswith "TR" token = false
          ∧ str_contains "-" token = false) →
       setGene list_of_set gene = [])
  ∧ (is_str gene = false ∨ gene = PStr EmptyString → setGene list_of_set gene = []).
Proof.
  split; [|split; [|split; [|split]]].
  - intros call Hcall. destruct gene as [| | | |g|]; try (inversion Hcall; fail).
    apply elem_of_setGene in Hcall as (token & Htok & Hcall).
    exists g, token. split; [reflexivity|]. split; [exact Htok|].
    unfold setGene_token in Hcall.
    destruct (startswith "IG" token || startswith "TR" token).
    + left. apply list_elem_of_singleton in Hcall. auto.
    + right. destruct (str_contains "-" token).
      * apply list_elem_of_singleton in Hcall. auto.
      * inversion Hcall.
  - intros g token -> Htok. split.
    + intros Hkept. apply elem_of_setGene. exists token.
      split; [assumption|]. unfold setGene_token. rewrite Hkept.
      apply list_elem_of_singleton. reflexivity.
    + intros Hnot Hhyphen. apply elem_of_setGene. exists token.
      split; [assumption|]. unfold setGene_token. rewrite Hnot, Hhyphen.
      apply list_elem_of_singleton. reflexivity.
  - intros g -> Hg. exists (list_of_set (re_split g)).
    split; [apply list_of_set_NoDup|].
    split; [intros t; apply list_of_set_elem|].
    split; [apply setGene_string, Hg|].
    intros t. apply setGene_token_length.
  - intros g -> Hnone.
    destruct (setGene list_of_set (PStr g)) as [|call calls] eqn:E; [reflexivity|].
    assert (Hcall : call ∈ setGene list_of_set (PStr g))
      by (rewrite E; apply list_elem_of_here).
    apply elem_of_setGene in Hcall as (token & Htok & Hcall).
    destruct (Hnone token Htok) as [Hnot Hhyphen].
    unfold setGene_token in Hcall. rewrite Hnot, Hhyphen in Hcall.
    inversion Hcall.
  - intros [Hns | ->]; [|reflexivity].
    destruct gene; try reflexivity. discriminate Hns.
Qed.

End SetGeneProofs.

Lemma setGene_call_array_witness :
  Rearrangement.setGene remove_dups (PStr "foo bar,3*01|foo") = []
  ∧ "IGHV3-23D" ∈ Rearrangement.setGene remove_dups (PStr "IGHV3-23*01|3-23D").
Proof.
  pose proof (setGene_call_array remove_dups
                (λ l, NoDup_remove_dups l)
                (λ l x, elem_of_remove_dups l x)) as H.
  split.
  - destruct (H (PStr "foo bar,3*01|foo")) as (_ & _ & _ & Hempty & _).
    apply (Hempty "foo bar,3*01|foo" eq_refl).
    intros token Htok. apply list_elem_of_In in Htok. simpl in Htok.
    destruct Htok as [<-|[<-|[<-|[<-|[]]]]]; split; reflexivity.
  - destruct (H (PStr "IGHV3-23*01|3-23D")) as (_ & Hkept & _).
    apply (Hkept "IGHV3-23*01|3-23D" "3-23D" eq_refl).
    + simpl. apply list_elem_of_further, list_elem_of_here.
    + reflexivity.
    + reflexivity.
Defined.

(** ** Repertoire linkage *)

(** C1. When the file field is mapped and the repository answers the
    query for the file name with a list of identifiers,
    [getRepertoireInfo] returns [None] if the list is empty, [None] if it
    has more than one identifier, and the identifier itself if it has
    exactly one; it writes nothing to the repository. *)
Theorem getRepertoireInfo_zero_one_many
    (self : Parser) (filename file_field : pyval) (idarray : list pyval) :
  getMapping self (getRearrangementFileField self) (getiReceptorTag self)
    (getRepositoryTag self) None = file_field →
  is_None file_field = false →
  repositoryGetRepertoireIDs self file_field filename = Some idarray →
  (idarray = [] →
     result (Rearrangement.getRepertoireInfo self filename) = Returns PNone)
  ∧ ((1 < length idarray)%nat →
     result (Rearrangement.getRepertoireInfo self filename) = Returns PNone)
  ∧ (∀ id, idarray = [id] →
     result (Rearrangement.getRepertoireInfo self filename) = Returns id)
  ∧ Forall (λ e, is_write e = false)
      (trace (Rearrangement.getRepertoireInfo self filename)).
Proof.
  intros Hmap Hfield Hquery.
  unfold Rearrangement.getRepertoireInfo. cbv zeta.
  rewrite Hmap, Hfield, Hquery.
  unfold result, trace, when.
  destruct idarray as [|id [|id' ids]]; cbn [length Nat.eqb Nat.ltb Nat.leb];
    destruct (verbose self); eff;
    (split; [|split; [|split]]);
    try (intros; simpl in *; first [reflexivity | lia | congruence]);
    try (repeat constructor; fail).
Qed.

Lemma getRepertoireInfo_zero_one_many_witness :
  result (Rearrangement.getRepertoireInfo
            (Example.parser false [Example.R1_D1; Example.R1_D2] PNone)
            (PStr "b.tsv"))
  = Returns (PStr "id2").
Proof.
  refine (proj1 (proj2 (proj2
    (getRepertoireInfo_zero_one_many
       (Example.parser false [Example.R1_D1; Example.R1_D2] PNone)
       (PStr "b.tsv") (PStr "ir_rearrangement_file_name") [PStr "id2"]
       _ _ _))) (PStr "id2") eq_refl); reflexivity.
Defined.

(** C8. [checkIDFields] returns [False] whenever the batch already has a
    column under the repository name of [repertoire_id],
    [data_processing_id] or [sample_processing_id]; it then leaves the
    batch as it was, assigns no column and asks the repository nothing:
    all it does is print which preset field it found. *)
Theorem checkIDFields_rejects_preset
    (self : Parser) (dataframe : DataFrame) (repertoire_link_id : pyval) :
  let id_field name :=
    getMapping self name (getAIRRTag self) (getRepositoryTag self)
      (Some (getRepertoireClass self)) in
  df_has (id_field "repertoire_id") dataframe
  || df_has (id_field "data_processing_id") dataframe
  || df_has (id_field "sample_processing_id") dataframe = true →
  ∃ field,
    field ∈ [id_field "repertoire_id"; id_field "data_processing_id";
             id_field "sample_processing_id"]
    ∧ df_has field dataframe = true
    ∧ Rearrangement.checkIDFields self dataframe repertoire_link_id
      = ([Print "ERROR: Can not load data with preset field %s" [field]],
         Returns (false, dataframe)).
Proof.
  intros id_field Hpreset. unfold Rearrangement.checkIDFields. cbv zeta.
  fold (id_field "repertoire_id") (id_field "data_processing_id")
       (id_field "sample_processing_id").
  destruct (df_has (id_field "repertoire_id") dataframe) eqn:Hrep.
  { exists (id_field "repertoire_id"). eff.
    split; [apply list_elem_of_here|]. split; [exact Hrep|reflexivity]. }
  destruct (df_has (id_field "data_processing_id") dataframe) eqn:Hdata.
  { exists (id_field "data_processing_id"). eff.
    split; [apply list_elem_of_further, list_elem_of_here|].
    split; [exact Hdata|reflexivity]. }
  destruct (df_has (id_field "sample_processing_id") dataframe) eqn:Hsample.
  { exists (id_field "sample_processing_id"). eff.
    split; [do 2 apply list_elem_of_further; apply list_elem_of_here|].
    split; [exact Hsample|reflexivity]. }
  discriminate Hpreset.
Qed.

Lemma checkIDFields_rejects_preset_witness :
  ∃ field,
    Rearrangement.checkIDFields (Example.parser false [Example.R1_D1] PNone)
      {| df_len := 1;
         df_columns := [(PStr "v_call", [PStr "IGHV3-23*01"]);
                        (PStr "data_processing_id", [PStr "mine"])] |}
      (PStr "id1")
    = ([Print "ERROR: Can not load data with preset field %s" [field]],
       Returns (false,
                {| df_len := 1;
                   df_columns := [(PStr "v_call", [PStr "IGHV3-23*01"]);
                                  (PStr "data_processing_id", [PStr "mine"])] |})).
Proof.
  destruct (checkIDFields_rejects_preset
              (Example.parser false [Example.R1_D1] PNone)
              {| df_len := 1;
                 df_columns := [(PStr "v_call", [PStr "IGHV3-23*01"]);
                                (PStr "data_processing_id", [PStr "mine"])] |}
              (PStr "id1") eq_refl) as (field & _ & _ & Hrun).
  exists field. exact Hrun.
Defined.

(** ** Field types *)

(** C9. For a key without an AIRR type in the mapping,
    [validAIRRFieldType] returns [True] when [strict] is false and
    [False] when it is true, whatever the value, and prints nothing. *)
Theorem validAIRRFieldType_non_AIRR_key
    (self : Parser) (key : string) (value : pyval) (strict : bool) :
  is_None (getMapping self key (getAIRRTag self) "airr_type"
             (Some (getRepertoireClass self))) = true →
  Repertoire.validAIRRFieldType self key value strict
  = ([], Returns (negb strict)).
Proof.
  intros Hnone.
  destruct value; simpl; rewrite Hnone; destruct strict; reflexivity.
Qed.

Lemma validAIRRFieldType_non_AIRR_key_witness :
  Repertoire.validAIRRFieldType (Example.parser false [] PNone)
    "my_lab_field" (PInt 7) true = ([], Returns false)
  ∧ Repertoire.validAIRRFieldType (Example.parser false [] PNone)
      "my_lab_field" (PList [PStr "a"; PNone]) false = ([], Returns true).
Proof.
  split.
  - apply (validAIRRFieldType_non_AIRR_key (Example.parser false [] PNone)
             "my_lab_field" (PInt 7) true). reflexivity.
  - apply (validAIRRFieldType_non_AIRR_key (Example.parser false [] PNone)
             "my_lab_field" (PList [PStr "a"; PNone]) false). reflexivity.
Defined.

(** ** Required fields *)

Section Required.

Import Rearrangement.

Variable self : Parser.

Lemma row_required_cell (row : dict) (required : pyval) :
  row !! "airr_required" = Some required →
  row_required row
  = ret (Py.eq required (PStr "TRUE") || Py.eq required (PBool true)).
Proof.
  intros Hcell. unfold row_required, dict_get, dict_lookup. rewrite Hcell.
  eff. destruct (Py.eq required (PStr "TRUE")); [reflexivity|].
  eff. reflexivity.
Qed.

Lemma label_eq_put_column (label other : pyval) (cells : list pyval)
    (cols : list (pyval * list pyval)) :
  existsb (λ c, label_eq other c.1) cols = true →
  existsb (λ c, label_eq other c.1) (put_column label cells cols) = true.
Proof.
  induction cols as [|c cols IH]; simpl; [discriminate|].
  intros H. destruct (label_eq label c.1); simpl.
  - exact H.
  - apply orb_true_iff in H as [H|H]; rewrite ?H, ?IH by exact H;
      auto using orb_true_r.
Qed.

(** A column that a frame has is still there after a null column is
    added. *)
Lemma df_has_null_column (label other : pyval) (dataframe df' : DataFrame) :
  df_set label nan dataframe = ret df' →
  df_has other dataframe = true → df_has other df' = true.
Proof.
  unfold df_set, nan, ret. intros [= <-]. unfold df_has. simpl.
  apply label_eq_put_column.
Qed.

Lemma df_column_put_column (label : pyval) (cells : list pyval)
    (cols : list (pyval * list pyval)) :
  label_eq label label = true →
  snd <$> find (λ c, label_eq label c.1) (put_column label cells cols) = Some cells.
Proof.
  intros Hrefl. induction cols as [|c cols IH]; simpl.
  - rewrite Hrefl. reflexivity.
  - destruct (label_eq label c.1) eqn:E; simpl; rewrite E; [reflexivity|exact IH].
Qed.

(** The rows before a row on which the loop is still running only add to
    the trace. *)
Lemma checkAIRRRequired_prefix (pre rest : list dict)
    (dataframe df1 : DataFrame) (log : list event) :
  checkAIRRRequired self dataframe pre = (log, Returns (true, df1)) →
  checkAIRRRequired self dataframe (pre ++ rest)
  = after log (checkAIRRRequired self df1 rest).
Proof.
  revert dataframe log. induction pre as [|row pre IH]; intros dataframe log.
  - simpl. intros [= <- <-]. symmetry. apply after_nil.
  - cbn [checkAIRRRequired app].
    destruct (checkAIRRRequired_body self dataframe row) as [t [[df'|]|e]].
    + rewrite !bind_pair. unfold after at 1. intros [= <- Hres].
      rewrite (IH df' (checkAIRRRequired self df' pre).1)
        by (rewrite <- Hres; apply Eff_eta).
      rewrite after_after. reflexivity.
    + rewrite bind_pair, after_ret. discriminate.
    + unfold bind. discriminate.
Qed.

(** C7. [checkAIRRRequired], on reaching a mandatory row whose repository
    column is absent from the batch: if the row is nullable, warns, adds
    the column with a null in every row and goes on with the next row; if
    it is not nullable, prints the AIRR name and the column of the missing
    field and returns [False].  When every mandatory field whose column
    is absent from the batch is nullable, it returns [True]. *)
Theorem checkAIRRRequired_missing_fields :
  (∀ dataframe df1 pre post row log required repository_field nullable airr_field,
     checkAIRRRequired self dataframe pre = (log, Returns (true, df1)) →
     row !! "airr_required" = Some required →
     Py.eq required (PStr "TRUE") || Py.eq required (PBool true) = true →
     row !! getRepositoryTag self = Some repository_field →
     df_has repository_field df1 = false →
     row !! "airr_nullable" = Some nullable →
     row !! getAIRRTag self = Some airr_field →
     (truthy nullable = true →
        ∃ df2,
          df_set repository_field nan df1 = ret df2
          ∧ (label_eq repository_field repository_field = true →
             df_column repository_field df2 = Some (replicate (df_len df2) nan))
          ∧ checkAIRRRequired self dataframe (pre ++ row :: post)
            = after
                (log ++ [Print "Warning: Nullable required AIRR field %s missing, setting to null"
                           [airr_field]])
                (checkAIRRRequired self df2 post))
     ∧ (truthy nullable = false →
        checkAIRRRequired self dataframe (pre ++ row :: post)
        = (log ++ [Print "ERROR: Required AIRR field %s (%s) missing"
                     [airr_field; repository_field]],
           Returns (false, df1))))
  ∧ (∀ airr_fields dataframe,
       (∀ row, row ∈ airr_fields →
          ∃ required repository_field nullable airr_field,
            row !! "airr_required" = Some required
            ∧ row !! getRepositoryTag self = Some repository_field
            ∧ row !! "airr_nullable" = Some nullable
            ∧ row !! getAIRRTag self = Some airr_field
            ∧ (Py.eq required (PStr "TRUE") || Py.eq required (PBool true) = true →
               df_has repository_field dataframe = false →
               truthy nullable = true)) →
       ∃ df', result (checkAIRRRequired self dataframe airr_fields)
              = Returns (true, df')).
Proof.
  split.
  - intros dataframe df1 pre post row log required repository_field nullable
      airr_field Hpre Hreq Hmandatory Hrepo Habsent Hnull Hairr.
    rewrite (checkAIRRRequired_prefix pre (row :: post) dataframe df1 log Hpre).
    cbn [checkAIRRRequired]. unfold checkAIRRRequired_body.
    rewrite (row_required_cell row required Hreq), Hmandatory. eff.
    unfold dict_get, dict_lookup. rewrite Hrepo. eff. rewrite Habsent.
    cbn [negb]. rewrite Hnull. eff. split; intros Htruthy; rewrite Htruthy.
    + rewrite Hairr. eff.
      exists {| df_len := df_len df1;
                df_columns := put_column repository_field
                                (replicate (df_len df1) nan) (df_columns df1) |}.
      split; [reflexivity|]. split.
      * intros Hrefl. unfold df_column. cbn [df_columns df_len].
        apply df_column_put_column, Hrefl.
      * unfold df_set, nan. eff. reflexivity.
    + rewrite Hairr. eff. unfold ret. cbn [fst snd]. reflexivity.
  - intros airr_fields. induction airr_fields as [|row rest IH]; intros dataframe Hrows.
    + exists dataframe. reflexivity.
    + destruct (Hrows row (list_elem_of_here _ _))
        as (required & repository_field & nullable & airr_field
            & Hreq & Hrepo & Hnull & Hairr & Hok).
      cbn [checkAIRRRequired]. unfold checkAIRRRequired_body.
      rewrite (row_required_cell row required Hreq). eff.
      destruct (Py.eq required (PStr "TRUE") || Py.eq required (PBool true)) eqn:Hm.
      * unfold dict_get, dict_lookup. rewrite Hrepo. eff.
        destruct (df_has repository_field dataframe) eqn:Hhas; cbn [negb].
        -- eff. apply IH. intros r Hr.
           apply Hrows, list_elem_of_further, Hr.
        -- rewrite Hnull. eff. rewrite (Hok eq_refl eq_refl), Hairr. eff.
           unfold result. cbn [snd].
           unfold df_set, nan. eff.
           apply IH. intros r Hr.
           destruct (Hrows r (list_elem_of_further _ _ _ Hr))
             as (rq & rf & nl & af & H1 & H2 & H3 & H4 & H5).
           exists rq, rf, nl, af. repeat (split; [assumption|]).
           intros Hrq Habs. apply (H5 Hrq).
           destruct (df_has rf dataframe) eqn:Hrf; [|reflexivity].
           rewrite <- Habs. symmetry. unfold df_has. cbn [df_columns].
           apply label_eq_put_column, Hrf.
      * eff. apply IH. intros r Hr. apply Hrows, list_elem_of_further, Hr.
Qed.

End Required.

Lemma checkAIRRRequired_missing_fields_witness :
  Rearrangement.checkAIRRRequired (Example.parser false [] PNone) Example.batch
    [Example.mapping_row "sequence" "sequence" (PStr "TRUE") (PBool false);
     Example.mapping_row "v_call" "v_call" (PBool true) (PBool true);
     Example.mapping_row "rev_comp" "rev_comp" (PBool true) (PBool false);
     Example.mapping_row "d_call" "d_call" (PBool true) (PBool true)]
  = ([Print "Warning: Nullable required AIRR field %s missing, setting to null"
        [PStr "v_call"];
      Print "ERROR: Required AIRR field %s (%s) missing"
        [PStr "rev_comp"; PStr "rev_comp"]],
     Returns (false,
              {| df_len := 2;
                 df_columns := [(PStr "sequence", [PStr "ACGT"; PStr "TTGA"]);
                                (PStr "v_call", [nan; nan])] |})).
Proof.
  destruct (checkAIRRRequired_missing_fields (Example.parser false [] PNone))
    as [Hstep _].
  destruct (Hstep Example.batch Example.batch
              [Example.mapping_row "sequence" "sequence" (PStr "TRUE") (PBool false)]
              [Example.mapping_row "rev_comp" "rev_comp" (PBool true) (PBool false);
               Example.mapping_row "d_call" "d_call" (PBool true) (PBool true)]
              (Example.mapping_row "v_call" "v_call" (PBool true) (PBool true))
              [] (PBool true) (PStr "v_call") (PBool true) (PStr "v_call")
              eq_refl eq_refl eq_refl eq_refl eq_refl eq_refl eq_refl)
    as [Hnullable _].
  destruct (Hnullable eq_refl) as (df2 & Hset & _ & Hrun).
  injection Hset as <-. exact Hrun.
Defined.

(** ** Traces *)

Lemma trace_bind {A B} (P : event → Prop) (m : Eff A) (k : A → Eff B) :
  Forall P m.1 → (∀ a, Forall P (k a).1) → Forall P (bind m k).1.
Proof.
  destruct m as [t [a|e]]; unfold bind; cbn [fst]; intros Hm Hk; [|exact Hm].
  specialize (Hk a). destruct (k a) as [t' r]. cbn [fst] in *.
  apply Forall_app. split; assumption.
Qed.

Lemma trace_ret {A} (P : event → Prop) (a : A) : Forall P (ret a).1.
Proof. constructor. Qed.

Lemma trace_raise {A} (P : event → Prop) (e : exn) : Forall P (@raise A e).1.
Proof. constructor. Qed.

Lemma trace_emit (P : event → Prop) (e : event) : P e → Forall P (emit e).1.
Proof. intros H. repeat constructor. exact H. Qed.

Lemma trace_dict_get (P : event → Prop) (k : pyval) (d : dict) :
  Forall P (dict_get k d).1.
Proof. unfold dict_get. destruct (dict_lookup k d); constructor. Qed.

(** The trace of a computation assembled from the primitives satisfies
    [P] when the events it emits do. *)
Ltac trace_ok :=
  repeat first
    [ apply trace_ret
    | apply trace_raise
    | apply trace_dict_get
    | apply trace_emit
    | apply trace_bind; [|intros ?]
    | match goal with
      | |- Forall _ (fst (when ?c _)) => destruct c; unfold when
      | |- Forall _ (fst (if ?c then _ else _)) => destruct c
      | |- Forall _ (fst (match ?x with _ => _ end)) => destruct x
      end ].

(** ** The repertoire uniqueness and upsert resolver *)

Section InsertRepertoire.

Import Repertoire.

Variable str : pyval → string.
Variable self : Parser.

Lemma incoming_id_pure (field : pyval) (json_document : dict) :
  incoming_id field json_document = ret (id_of field json_document).
Proof.
  unfold incoming_id, id_of, dict_has, dict_get.
  destruct (dict_lookup field json_document) as [v|]; cbn; [|reflexivity].
  eff. destruct (Py.eq v (PStr EmptyString)); reflexivity.
Qed.

Lemma label_of_pure (tag : pyval) (json_document : dict) :
  label_of tag json_document = ret (label tag json_document).
Proof.
  unfold label_of, label, dict_has, dict_get.
  destruct (dict_lookup tag json_document) as [v|]; reflexivity.
Qed.

(** A run that passes the check of the files goes on to the update or
    the insert branch with the repertoires that share the repertoire
    identifier of the document. *)
Lemma repositoryInsertRepertoire_branch
    (json_document : dict) (names : pyval) (idarray : list pyval) :
  dict_lookup (file_field self) json_document = Some names →
  (if no_files names then Some []
   else repositoryGetRepertoireIDs self (file_field self) names) = Some idarray →
  negb (updateOnly (repository self)) && negb (length idarray =? 0)%nat = false →
  is_None (rep_id_field (locals_of self json_document)) = false →
  repositoryInsertRepertoire str self json_document
  = let l := locals_of self json_document in
    let rep_array := sharing_repertoire_id self json_document in
    after (file_events self names ++ [GetRepertoires (rep_id_field l) (repertoire_id l)])
      (if updateOnly (repository self)
       then update_branch self l json_document rep_array
       else insert_branch str self l json_document rep_array).
Proof.
  intros Hfile Hids Hmode Hrep. cbv zeta.
  unfold repositoryInsertRepertoire. cbv zeta. fold (file_field self).
  unfold dict_get at 1. rewrite Hfile. eff.
  unfold file_events, sharing_repertoire_id. fold (no_files names).
  assert (Hnames : default PNone (dict_lookup (file_field self) json_document) = names)
    by (rewrite Hfile; reflexivity).
  cbn [rep_id_field locals_of] in Hrep.
  destruct (no_files names); eff.
  - injection Hids as <-. rewrite !label_of_pure. eff.
    cbn [length Nat.eqb negb]. rewrite andb_false_r. rewrite Hrep.
    rewrite !incoming_id_pure. eff.
    unfold locals_of. cbn [rep_id_field repertoire_id].
    fold (file_field self). rewrite Hnames. reflexivity.
  - rewrite Hids. rewrite !label_of_pure. eff.
    rewrite Hmode. rewrite Hrep. rewrite !incoming_id_pure. eff.
    unfold locals_of. cbn [rep_id_field repertoire_id].
    fold (file_field self). rewrite Hnames. reflexivity.
Qed.

(** *** The insert branch *)

(** The flag [duplicate] can only go from true to false. *)
Lemma duplicate_fold (l : locals) (rep_array : list dict) (duplicate : bool) :
  foldl (duplicate_step l) duplicate rep_array
  = duplicate && forallb (λ rep, negb (distinguishable l rep)) rep_array.
Proof.
  revert duplicate. induction rep_array as [|rep rest IH]; intros duplicate; simpl.
  - rewrite andb_true_r. reflexivity.
  - rewrite IH. unfold duplicate_step, distinguishable.
    destruct (differs (data_id_field l) (data_processing_id l) rep),
      (differs (sample_id_field l) (sample_processing_id l) rep), duplicate;
      reflexivity.
Qed.

Lemma confirm_unique_prints (l : locals) (rep_array : list dict) :
  Forall is_print (confirm_unique l rep_array).1.
Proof.
  unfold confirm_unique, print.
  trace_ok; unfold is_print; eauto.
Qed.

(** Nothing to compare with, or a record the document can be told from:
    the check passes in silence. *)
Lemma confirm_unique_passes (l : locals) (rep_array : list dict) :
  forallb (λ rep, negb (distinguishable l rep)) rep_array = false ∨ rep_array = [] →
  confirm_unique l rep_array = ret true.
Proof.
  intros [Hsome | ->]; [|reflexivity].
  unfold confirm_unique. rewrite duplicate_fold, Hsome.
  destruct (negb (length rep_array =? 0)%nat); reflexivity.
Qed.

(** No record the document can be told from: the check fails, and in no
    case does it pass. *)
Lemma confirm_unique_fails (l : locals) (rep_array : list dict) :
  rep_array ≠ [] →
  forallb (λ rep, negb (distinguishable l rep)) rep_array = true →
  (confirm_unique l rep_array).2 ≠ Returns true.
Proof.
  intros Hne Hall. unfold confirm_unique. rewrite duplicate_fold, Hall.
  destruct rep_array as [|rep rest]; [congruence|].
  cbn [length Nat.eqb negb andb]. eff.
  destruct (last (rep :: rest)) as [rep'|]; [|eff; discriminate].
  unfold dict_get.
  destruct (dict_lookup (rep_id_field l) rep'); eff; [|discriminate].
  destruct (dict_lookup (data_id_field l) rep'); eff; [|discriminate].
  destruct (dict_lookup (sample_id_field l) rep'); eff; discriminate.
Qed.

(** The document as it is handed to [insertRepertoire]. *)
Lemma insert_branch_inserts (l : locals) (json_document : dict)
    (rep_array : list dict) (count : string) :
  confirm_unique l rep_array = ret true →
  getMapping self (getRearrangementCountField self) (getiReceptorTag self)
    (getRepositoryTag self) None = PStr count →
  let doc := stamped self count json_document in
  let record_id := insertRepertoire (repository self) doc (link_repository_field l) in
  insert_branch str self l json_document rep_array
  = if is_None record_id then
      ([InsertRepertoire doc (link_repository_field l);
        Print "ERROR: Unable to write repertoire record to repository" []],
       Returns PNone)
    else
      (InsertRepertoire doc (link_repository_field l)
         :: write_backs str l record_id
         ++ [Print "Info: Successfully wrote repertoire record <%s, %s, %s>"
               [study l; sample l; file_names l]],
       Returns record_id).
Proof.
  intros Hunique Hcount. cbv zeta.
  unfold insert_branch. rewrite Hunique. eff. cbn [negb]. cbv zeta.
  rewrite Hcount. cbn [is_None dict_set]. eff.
  destruct (is_None (insertRepertoire _ _ _)); eff; [reflexivity|].
  unfold write_back, write_backs, when.
  destruct (is_None (repertoire_id l)), (is_None (data_processing_id l)),
    (is_None (sample_processing_id l)); eff; reflexivity.
Qed.

Lemma insert_branch_no_file_query (l : locals) (json_document : dict)
    (rep_array : list dict) :
  Forall (λ e, is_file_query e = false)
    (insert_branch str self l json_document rep_array).1.
Proof.
  unfold insert_branch, confirm_unique, write_back, dict_set, print.
  trace_ok; reflexivity.
Qed.

(** The uniqueness check of the insert branch when the last record
    compared carries the three identifier fields (the error report reads
    them): the branch returns [None] without an insert exactly when no
    record of [rep_array] is distinguishable from the document. *)
Lemma insert_fails_iff_indistinguishable (l : locals) (json_document : dict)
    (rep_array : list dict) :
  rep_array ≠ [] →
  (∃ rep, last rep_array = Some rep
          ∧ is_Some (dict_lookup (rep_id_field l) rep)
          ∧ is_Some (dict_lookup (data_id_field l) rep)
          ∧ is_Some (dict_lookup (sample_id_field l) rep)) →
  forallb (λ rep, negb (distinguishable l rep)) rep_array = true
  ↔ result (insert_branch str self l json_document rep_array) = Returns PNone
    ∧ Forall (λ e, is_insert e = false)
        (trace (insert_branch str self l json_document rep_array)).
Proof.
  intros Hne (rep & Hlast & [r Hr] & [d Hd] & [s Hs]). split.
  - intros Hall. unfold insert_branch, confirm_unique.
    rewrite duplicate_fold, Hall.
    destruct rep_array as [|rep0 rest]; [congruence|].
    cbn [length Nat.eqb negb andb]. eff. rewrite Hlast.
    unfold dict_get. rewrite Hr. eff. rewrite Hd. eff. rewrite Hs. eff.
    cbn [negb]. eff. unfold result, trace. cbn [fst snd].
    split; [reflexivity|]. repeat constructor.
  - intros [Hres Htrace].
    destruct (forallb (λ rep, negb (distinguishable l rep)) rep_array) eqn:Hall;
      [reflexivity|exfalso].
    pose proof (confirm_unique_passes l rep_array (or_introl Hall)) as Hpass.
    destruct (getMapping self (getRearrangementCountField self)
                (getiReceptorTag self) (getRepositoryTag self) None)
      as [| | | |count|] eqn:Hcount.
    2,3,4,6: (unfold insert_branch in Hres; rewrite Hpass in Hres;
              revert Hres; eff; cbn [negb]; cbv zeta; rewrite Hcount;
              cbn [is_None dict_set]; eff; discriminate).
    + unfold insert_branch in Hres. rewrite Hpass in Hres.
      revert Hres. eff. cbn [negb]. cbv zeta. rewrite Hcount.
      cbn [is_None]. eff. discriminate.
    + rewrite (insert_branch_inserts l json_document rep_array count Hpass Hcount)
        in Htrace.
      cbv zeta in Htrace. unfold trace in Htrace.
      destruct (is_None (insertRepertoire _ _ _)); cbn [fst] in Htrace;
        inversion Htrace as [|? ? Hhead _]; discriminate Hhead.
Qed.

(** *** The update branch *)

(** On a record that carries the three identifier fields the test of
    the update loop is the comparison of the triples. *)
Lemma same_triple_pure (l : locals) (rep : dict) :
  is_Some (dict_lookup (sample_id_field l) rep) →
  is_Some (dict_lookup (data_id_field l) rep) →
  is_Some (dict_lookup (rep_id_field l) rep) →
  same_triple l rep = ret (triple_equal l rep).
Proof.
  intros [s Hs] [d Hd] [r Hr]. unfold same_triple, triple_equal, dict_get.
  rewrite Hs, Hd, Hr. eff.
  destruct (Py.eq s (sample_processing_id l)); [|reflexivity]. eff.
  destruct (Py.eq d (data_processing_id l)); [|reflexivity]. eff.
  reflexivity.
Qed.

(** When no record has the triple of the document, the loop ends
    without a target: [link_repository_value] is as it was. *)
Lemma update_target_no_match (l : locals) (rep_array : list dict) (value : pyval) :
  Forall (λ rep, has_triple l rep ∧ triple_equal l rep = false) rep_array →
  update_target l rep_array value = ret (Some value).
Proof.
  induction 1 as [|rep rest [(Hs & Hd & Hr) Hneq] _ IH]; [reflexivity|].
  cbn [update_target]. rewrite (same_triple_pure l rep Hs Hd Hr), Hneq. eff.
  exact IH.
Qed.

(** With several repertoires of the same identifier and none with the
    triple of the document, the update branch does not fail: it calls
    [updateRepertoire] with the link value [None] and returns what the
    repository answers. *)
Lemma update_branch_without_target (l : locals) (json_document : dict)
    (rep_array : list dict) :
  (1 < length rep_array)%nat →
  Forall (λ rep, has_triple l rep ∧ triple_equal l rep = false) rep_array →
  let doc := <["ir_updated_at" := getDateTimeNowUTC self 0]> json_document in
  result (update_branch self l json_document rep_array)
  = Returns (updateRepertoire (repository self) (link_repository_field l) PNone doc)
  ∧ UpdateRepertoire (link_repository_field l) PNone doc
    ∈ trace (update_branch self l json_document rep_array).
Proof.
  intros Hlen Hnone. cbv zeta. unfold update_branch.
  destruct rep_array as [|r1 [|r2 rest]]; cbn [length] in Hlen; [lia|lia|].
  cbn [length Nat.eqb Nat.ltb Nat.leb].
  rewrite (update_target_no_match l _ PNone Hnone). eff. cbv zeta.
  unfold when, result, trace. destruct (verbose self); eff; cbn [fst snd].
  - split; [reflexivity|]. do 5 apply list_elem_of_further. apply list_elem_of_here.
  - split; [reflexivity|]. apply list_elem_of_here.
Qed.

(** Without a repertoire of the identifier the update branch prints an
    error and returns [None]. *)
Lemma update_branch_not_found (l : locals) (json_document : dict) :
  update_branch self l json_document []
  = ([Print "ERROR: Could not find Reperotire %s to update" [repertoire_id l]],
     Returns PNone).
Proof. unfold update_branch. cbn [length Nat.eqb]. eff. reflexivity. Qed.

(** C10. In insert mode, when the repository answers the query for the
    file names of the incoming document with at least one repertoire,
    [repositoryInsertRepertoire] returns [None] having made that one
    query and printed its messages: it does not ask for the repertoires
    that share the repertoire identifier and writes nothing.  A document
    whose file names are [None] or empty is not checked: the method warns,
    makes no query for files, and goes on; if no repertoire shares its
    identifier and the write succeeds, it is inserted. *)
Theorem insert_rejects_known_files (json_document : dict) (names : pyval) :
  updateOnly (repository self) = false →
  dict_lookup (file_field self) json_document = Some names →
  (no_files names = false →
     ∀ idarray,
       repositoryGetRepertoireIDs self (file_field self) names = Some idarray →
       idarray ≠ [] →
       ∃ prints,
         repositoryInsertRepertoire str self json_document
         = (GetRepertoireIDs (file_field self) names :: prints, Returns PNone)
         ∧ Forall is_print prints)
  ∧ (no_files names = true →
     (∃ rest,
        trace (repositoryInsertRepertoire str self json_document)
        = Print "Warning: Repertoire does not have any rearrangement files." []
            :: Print "Warning:     Will not be able to link rearrangements to this repertoire" []
            :: rest
        ∧ Forall (λ e, is_file_query e = false) rest)
     ∧ ∀ count,
         let l := locals_of self json_document in
         let doc := stamped self count json_document in
         let record_id :=
           insertRepertoire (repository self) doc (link_repository_field l) in
         is_None (rep_id_field l) = false →
         sharing_repertoire_id self json_document = [] →
         getMapping self (getRearrangementCountField self) (getiReceptorTag self)
           (getRepositoryTag self) None = PStr count →
         is_None record_id = false →
         result (repositoryInsertRepertoire str self json_document) = Returns record_id
         ∧ InsertRepertoire doc (link_repository_field l)
           ∈ trace (repositoryInsertRepertoire str self json_document)).
Proof.
  intros Hmode Hfile. split.
  - intros Hfiles idarray Hquery Hfound.
    unfold repositoryInsertRepertoire. cbv zeta. fold (file_field self).
    unfold dict_get at 1. rewrite Hfile. eff. fold (no_files names).
    rewrite Hfiles. eff. rewrite Hquery. eff. rewrite !label_of_pure. eff.
    rewrite Hmode. destruct idarray as [|id ids]; [congruence|].
    cbn [length Nat.eqb negb andb]. eff.
    eexists. split; [reflexivity|].
    repeat constructor; unfold is_print; eauto.
  - intros Hfiles. split.
    + unfold trace.
      destruct (is_None (rep_id_field (locals_of self json_document))) eqn:Hrep.
      * unfold repositoryInsertRepertoire. cbv zeta. fold (file_field self).
        unfold dict_get at 1. rewrite Hfile. eff. fold (no_files names).
        rewrite Hfiles. eff. rewrite !label_of_pure. eff.
        cbn [length Nat.eqb negb]. rewrite andb_false_r.
        cbn [rep_id_field locals_of] in Hrep. rewrite Hrep. eff.
        eexists. split; [reflexivity|]. repeat constructor.
      * rewrite (repositoryInsertRepertoire_branch json_document names []);
          [|assumption|rewrite Hfiles; reflexivity
           |rewrite Hmode; reflexivity|assumption].
        cbv zeta. rewrite Hmode. unfold file_events. rewrite Hfiles.
        unfold after. cbn [fst app]. eexists. split; [reflexivity|].
        constructor; [reflexivity|]. apply insert_branch_no_file_query.
    + intros count l doc record_id Hrep Hnone Hcount Hwritten.
      rewrite (repositoryInsertRepertoire_branch json_document names []);
        [|assumption|rewrite Hfiles; reflexivity
         |rewrite Hmode; reflexivity|assumption].
      cbv zeta. rewrite Hmode, Hnone.
      rewrite (insert_branch_inserts _ _ _ count);
        [|apply confirm_unique_passes; right; reflexivity|assumption].
      cbv zeta. fold l doc record_id. rewrite Hwritten.
      unfold result, trace, after. cbn [fst snd]. split; [reflexivity|].
      apply elem_of_app. right. apply list_elem_of_here.
Qed.

(** *** A successful insert *)

Lemma confirm_unique_true_silent (l : locals) (rep_array : list dict) :
  (confirm_unique l rep_array).2 = Returns true →
  confirm_unique l rep_array = ret true.
Proof.
  destruct (forallb (λ rep, negb (distinguishable l rep)) rep_array) eqn:Hall.
  - destruct rep_array as [|rep rest]; [reflexivity|].
    intros Htrue. exfalso.
    exact (confirm_unique_fails l (rep :: rest) ltac:(discriminate) Hall Htrue).
  - intros _. apply confirm_unique_passes. left. exact Hall.
Qed.

(** A run of the insert branch that returns an identifier has inserted
    the stamped document and written back the missing identifiers, and
    nothing else. *)
Lemma insert_branch_success (l : locals) (json_document : dict)
    (rep_array : list dict) (t : list event) (record_id : pyval) :
  insert_branch str self l json_document rep_array = (t, Returns record_id) →
  is_None record_id = false →
  ∃ count,
    getMapping self (getRearrangementCountField self) (getiReceptorTag self)
      (getRepositoryTag self) None = PStr count
    ∧ record_id = insertRepertoire (repository self) (stamped self count json_document)
                    (link_repository_field l)
    ∧ t = InsertRepertoire (stamped self count json_document) (link_repository_field l)
            :: write_backs str l record_id
            ++ [Print "Info: Successfully wrote repertoire record <%s, %s, %s>"
                  [study l; sample l; file_names l]].
Proof.
  intros Hrun Hid.
  destruct (confirm_unique l rep_array) as [t0 [[|]|e]] eqn:Hunique.
  - assert (Hsilent : confirm_unique l rep_array = ret true)
      by (apply confirm_unique_true_silent; rewrite Hunique; reflexivity).
    destruct (getMapping self (getRearrangementCountField self)
                (getiReceptorTag self) (getRepositoryTag self) None)
      as [| | | |count|] eqn:Hcount.
    5: { exists count. split; [reflexivity|].
         rewrite (insert_branch_inserts l json_document rep_array count Hsilent Hcount)
           in Hrun.
         cbv zeta in Hrun.
         destruct (is_None (insertRepertoire _ _ _)) eqn:Hnone.
         - injection Hrun as _ <-. discriminate Hid.
         - injection Hrun as <- <-. split; reflexivity. }
    all: exfalso; unfold insert_branch in Hrun; rewrite Hsilent in Hrun;
      revert Hrun; eff; cbn [negb]; cbv zeta; rewrite Hcount;
      cbn [is_None dict_set]; eff; discriminate.
  - exfalso. unfold insert_branch in Hrun. rewrite Hunique in Hrun.
    revert Hrun. eff. cbn [negb]. eff. intros [= _ <-]. discriminate Hid.
  - exfalso. unfold insert_branch in Hrun. rewrite Hunique in Hrun.
    revert Hrun. unfold bind. discriminate.
Qed.

(** A run of [repositoryInsertRepertoire] in insert mode that returns an
    identifier: what it did, from the first event to the last. *)
Lemma repositoryInsertRepertoire_success
    (json_document : dict) (t : list event) (record_id : pyval) :
  updateOnly (repository self) = false →
  repositoryInsertRepertoire str self json_document = (t, Returns record_id) →
  is_None record_id = false →
  let l := locals_of self json_document in
  ∃ count,
    getMapping self (getRearrangementCountField self) (getiReceptorTag self)
      (getRepositoryTag self) None = PStr count
    ∧ record_id = insertRepertoire (repository self) (stamped self count json_document)
                    (link_repository_field l)
    ∧ t = (file_events self (file_names l)
             ++ [GetRepertoires (rep_id_field l) (repertoire_id l)])
          ++ InsertRepertoire (stamped self count json_document) (link_repository_field l)
             :: write_backs str l record_id
             ++ [Print "Info: Successfully wrote repertoire record <%s, %s, %s>"
                   [study l; sample l; file_names l]].
Proof.
  intros Hmode Hrun Hid. cbv zeta.
  destruct (dict_lookup (file_field self) json_document) as [names|] eqn:Hfile.
  2: { exfalso. revert Hrun. unfold repositoryInsertRepertoire. cbv zeta.
       fold (file_field self). unfold dict_get at 1. rewrite Hfile. eff.
       discriminate. }
  assert (Hnames : file_names (locals_of self json_document) = names).
  { unfold locals_of. cbn [file_names]. fold (file_field self).
    rewrite Hfile. reflexivity. }
  destruct (if no_files names then Some []
            else repositoryGetRepertoireIDs self (file_field self) names)
    as [idarray|] eqn:Hids.
  2: { exfalso. revert Hrun. unfold repositoryInsertRepertoire. cbv zeta.
       fold (file_field self). unfold dict_get at 1. rewrite Hfile. eff.
       fold (no_files names). destruct (no_files names); [discriminate Hids|].
       eff. rewrite Hids. eff. intros [= _ <-]. discriminate Hid. }
  destruct (negb (updateOnly (repository self)) && negb (length idarray =? 0)%nat)
    eqn:Hknown.
  { exfalso. revert Hrun. unfold repositoryInsertRepertoire. cbv zeta.
    fold (file_field self). unfold dict_get at 1. rewrite Hfile. eff.
    fold (no_files names). destruct (no_files names); eff.
    - injection Hids as <-. rewrite Hmode in Hknown. discriminate Hknown.
    - rewrite Hids. eff. rewrite !label_of_pure. eff. rewrite Hknown. eff.
      intros [= _ <-]. discriminate Hid. }
  destruct (is_None (rep_id_field (locals_of self json_document))) eqn:Hrep.
  { exfalso. revert Hrun. unfold repositoryInsertRepertoire. cbv zeta.
    fold (file_field self). unfold dict_get at 1. rewrite Hfile. eff.
    fold (no_files names). cbn [rep_id_field locals_of] in Hrep.
    destruct (no_files names); eff.
    - injection Hids as <-. rewrite !label_of_pure. eff. rewrite Hknown, Hrep. eff.
      intros [= _ <-]. discriminate Hid.
    - rewrite Hids. eff. rewrite !label_of_pure. eff. rewrite Hknown, Hrep. eff.
      intros [= _ <-]. discriminate Hid. }
  rewrite (repositoryInsertRepertoire_branch json_document names idarray
             Hfile Hids Hknown Hrep) in Hrun.
  cbv zeta in Hrun. rewrite Hmode in Hrun.
  destruct (insert_branch str self (locals_of self json_document) json_document
              (sharing_repertoire_id self json_document)) as [t' r] eqn:Hbranch.
  unfold after in Hrun. cbn [fst snd] in Hrun. injection Hrun as <- ->.
  destruct (insert_branch_success _ _ _ _ _ Hbranch Hid) as (count & Hcount & Hrid & ->).
  exists count. rewrite Hnames. repeat split; assumption || reflexivity.
Qed.

(** *** The stored records after an insert *)

Lemma commit_app (records : list dict) (t1 t2 : list event) :
  Store.commit (repository self) records (t1 ++ t2)
  = Store.commit (repository self) (Store.commit (repository self) records t1) t2.
Proof. unfold Store.commit. apply foldl_app. Qed.

Lemma commit_no_write (records : list dict) (t : list event) :
  Forall (λ e, is_write e = false) t →
  Store.commit (repository self) records t = records.
Proof.
  unfold Store.commit. induction 1 as [|e t He _ IH]; [reflexivity|].
  cbn [foldl]. destruct e; try discriminate He; exact IH.
Qed.

Lemma file_events_no_write (names : pyval) :
  Forall (λ e, is_write e = false) (file_events self names).
Proof. unfold file_events. destruct (no_files names); repeat constructor. Qed.

(** A write-back reaches the record just created, which is the last
    one, and sets the field on it. *)
Lemma commit_write_back (others : list dict) (created : dict)
    (link field : string) (record_id value : pyval) (missing : bool) :
  created !! link = Some record_id →
  Py.eq record_id record_id = true →
  ∃ others',
    Store.commit (repository self) (others ++ [created])
      (if missing
       then [UpdateField (PStr link) record_id (PStr field) value]
       else [])
    = others' ++ [if missing then <[field := value]> created else created].
Proof.
  intros Hlink Hrefl. destruct missing; [|exists others; reflexivity].
  eexists. unfold Store.commit. cbn [foldl Store.write].
  rewrite fmap_app. cbn [fmap list_fmap].
  unfold Store.matches at 2. cbn [dict_lookup]. rewrite Hlink, Hrefl.
  reflexivity.
Qed.

Lemma id_of_present (field : string) (json_document : dict) :
  is_None (id_of (PStr field) json_document) = false →
  json_document !! field = Some (id_of (PStr field) json_document)
  ∧ Py.eq (id_of (PStr field) json_document) (PStr EmptyString) = false.
Proof.
  unfold id_of. cbn [dict_lookup].
  destruct (json_document !! field) as [v|]; [|discriminate].
  destruct (Py.eq v (PStr EmptyString)) eqn:E; [discriminate|].
  intros _. split; [reflexivity|exact E].
Qed.

(** C4. A run of [repositoryInsertRepertoire] in insert mode that returns
    a record identifier has inserted the document and then, for each of
    [repertoire_id], [data_processing_id] and [sample_processing_id] that
    the incoming document lacked or had empty, called
    [updateField(link, record_id, field, str(record_id))], and made no
    other write.  In the stored records these writes leave the record
    just created with its three identifier fields present and not empty:
    the value of the document where it had one, the stringified record
    identifier where it had none. *)
Theorem insert_writes_back_missing_ids
    (json_document : dict) (t : list event) (record_id : pyval) :
  updateOnly (repository self) = false →
  repositoryInsertRepertoire str self json_document = (t, Returns record_id) →
  is_None record_id = false →
  let l := locals_of self json_document in
  (∃ before inserted,
     t = before
         ++ InsertRepertoire inserted (link_repository_field l)
         :: write_backs str l record_id
         ++ [Print "Info: Successfully wrote repertoire record <%s, %s, %s>"
               [study l; sample l; file_names l]]
     ∧ Forall (λ e, is_write e = false) before
     ∧ record_id
       = insertRepertoire (repository self) inserted (link_repository_field l))
  ∧ ∀ records link rep data smp count,
      link_repository_field l = PStr link →
      rep_id_field l = PStr rep →
      data_id_field l = PStr data →
      sample_id_field l = PStr smp →
      getMapping self (getRearrangementCountField self) (getiReceptorTag self)
        (getRepositoryTag self) None = PStr count →
      NoDup [rep; data; smp] →
      (∀ f, f ∈ [rep; data; smp] →
            f ∉ [link; "ir_updated_at"; "ir_created_at"; count]) →
      Py.eq record_id record_id = true →
      str record_id ≠ EmptyString →
      ∃ others created,
        Store.commit (repository self) records t = others ++ [created]
        ∧ created !! link = Some record_id
        ∧ created !! rep
          = Some (if is_None (repertoire_id l) then PStr (str record_id)
                  else repertoire_id l)
        ∧ created !! data
          = Some (if is_None (data_processing_id l) then PStr (str record_id)
                  else data_processing_id l)
        ∧ created !! smp
          = Some (if is_None (sample_processing_id l) then PStr (str record_id)
                  else sample_processing_id l)
        ∧ Store.has_id (PStr rep) created
        ∧ Store.has_id (PStr data) created
        ∧ Store.has_id (PStr smp) created.
Proof.
  intros Hmode Hrun Hid l.
  destruct (repositoryInsertRepertoire_success json_document t record_id
              Hmode Hrun Hid) as (count0 & Hcount0 & Hrid & Ht).
  fold l in Hrid, Ht. split.
  - eexists _, _. split; [exact Ht|]. split; [|exact Hrid].
    apply Forall_app. split; [apply file_events_no_write|repeat constructor].
  - intros records link rep data smp count Hlink Hrep Hdata Hsmp Hcount
      Hdistinct Hfresh Hrefl Hstr.
    rewrite Hcount in Hcount0. injection Hcount0 as <-.
    assert (Hne : rep ≠ data ∧ rep ≠ smp ∧ data ≠ smp).
    { apply NoDup_cons in Hdistinct as [Hhead Htail].
      apply NoDup_cons in Htail as [Hhead' _].
      apply not_elem_of_cons in Hhead as [Hrd Hrs].
      apply not_elem_of_cons in Hrs as [Hrs _].
      apply not_elem_of_cons in Hhead' as [Hds _]. auto. }
    destruct Hne as (Hrd & Hrs & Hds).
    assert (Hfrep := Hfresh rep ltac:(set_solver)).
    assert (Hfdata := Hfresh data ltac:(set_solver)).
    assert (Hfsmp := Hfresh smp ltac:(set_solver)).
    rewrite !not_elem_of_cons in Hfrep, Hfdata, Hfsmp.
    destruct Hfrep as (Hr1 & Hr2 & Hr3 & Hr4 & _).
    destruct Hfdata as (Hd1 & Hd2 & Hd3 & Hd4 & _).
    destruct Hfsmp as (Hs1 & Hs2 & Hs3 & Hs4 & _).
    (* the incoming identifiers, read from the document *)
    assert (Hrid_of : repertoire_id l = id_of (PStr rep) json_document)
      by (rewrite <- Hrep; reflexivity).
    assert (Hdid_of : data_processing_id l = id_of (PStr data) json_document)
      by (rewrite <- Hdata; reflexivity).
    assert (Hsid_of : sample_processing_id l = id_of (PStr smp) json_document)
      by (rewrite <- Hsmp; reflexivity).
    (* the store after the writes *)
    rewrite Ht, commit_app.
    rewrite (commit_no_write records)
      by (apply Forall_app; split; [apply file_events_no_write|repeat constructor]).
    change (InsertRepertoire ?d ?k :: ?w ++ ?p)
      with ([InsertRepertoire d k] ++ w ++ p).
    rewrite commit_app. unfold Store.commit at 2. cbn [foldl Store.write].
    rewrite <- Hrid, Hid, Hlink. cbn [Store.set_field].
    rewrite commit_app. unfold write_backs. rewrite Hlink, Hrep, Hdata, Hsmp.
    rewrite !commit_app.
    set (created0 := <[link := record_id]> (stamped self count json_document)).
    assert (Hlink0 : created0 !! link = Some record_id)
      by (apply lookup_insert_eq).
    destruct (commit_write_back records created0 link rep record_id
                (PStr (str record_id)) (is_None (repertoire_id l)) Hlink0 Hrefl)
      as (others1 & ->).
    set (created1 := if is_None (repertoire_id l)
                     then <[rep := PStr (str record_id)]> created0 else created0).
    assert (Hlink1 : created1 !! link = Some record_id).
    { subst created1. destruct (is_None (repertoire_id l)); [|exact Hlink0].
      rewrite lookup_insert_ne by congruence. exact Hlink0. }
    destruct (commit_write_back others1 created1 link data record_id
                (PStr (str record_id)) (is_None (data_processing_id l)) Hlink1 Hrefl)
      as (others2 & ->).
    set (created2 := if is_None (data_processing_id l)
                     then <[data := PStr (str record_id)]> created1 else created1).
    assert (Hlink2 : created2 !! link = Some record_id).
    { subst created2. destruct (is_None (data_processing_id l)); [|exact Hlink1].
      rewrite lookup_insert_ne by congruence. exact Hlink1. }
    destruct (commit_write_back others2 created2 link smp record_id
                (PStr (str record_id)) (is_None (sample_processing_id l)) Hlink2 Hrefl)
      as (others3 & ->).
    set (created3 := if is_None (sample_processing_id l)
                     then <[smp := PStr (str record_id)]> created2 else created2).
    assert (Hlink3 : created3 !! link = Some record_id).
    { subst created3. destruct (is_None (sample_processing_id l)); [|exact Hlink2].
      rewrite lookup_insert_ne by congruence. exact Hlink2. }
    exists others3, created3.
    split; [reflexivity|]. split; [exact Hlink3|].
    assert (Hstamped : ∀ f, f ∈ [rep; data; smp] →
              created0 !! f = json_document !! f).
    { intros f Hf. specialize (Hfresh f Hf).
      rewrite !not_elem_of_cons in Hfresh.
      destruct Hfresh as (H1 & H2 & H3 & H4 & _).
      subst created0. unfold stamped.
      rewrite !lookup_insert_ne by congruence. reflexivity. }
    assert (Hstr' : Py.eq (PStr (str record_id)) (PStr EmptyString) = false).
    { cbn. apply bool_decide_eq_false_2. exact Hstr. }
    assert (Hvrep : created3 !! rep
              = Some (if is_None (repertoire_id l) then PStr (str record_id)
                      else repertoire_id l)).
    { subst created3 created2 created1.
      destruct (is_None (repertoire_id l)) eqn:E1,
        (is_None (data_processing_id l)), (is_None (sample_processing_id l));
        repeat first [ rewrite lookup_insert_eq
                     | rewrite lookup_insert_ne by congruence ];
        try reflexivity;
        rewrite Hstamped by set_solver;
        rewrite Hrid_of in E1 |- *; apply id_of_present, E1. }
    assert (Hvdata : created3 !! data
              = Some (if is_None (data_processing_id l) then PStr (str record_id)
                      else data_processing_id l)).
    { subst created3 created2 created1.
      destruct (is_None (repertoire_id l)),
        (is_None (data_processing_id l)) eqn:E2, (is_None (sample_processing_id l));
        repeat first [ rewrite lookup_insert_eq
                     | rewrite lookup_insert_ne by congruence ];
        try reflexivity;
        rewrite Hstamped by set_solver;
        rewrite Hdid_of in E2 |- *; apply id_of_present, E2. }
    assert (Hvsmp : created3 !! smp
              = Some (if is_None (sample_processing_id l) then PStr (str record_id)
                      else sample_processing_id l)).
    { subst created3 created2 created1.
      destruct (is_None (repertoire_id l)),
        (is_None (data_processing_id l)), (is_None (sample_processing_id l)) eqn:E3;
        repeat first [ rewrite lookup_insert_eq
                     | rewrite lookup_insert_ne by congruence ];
        try reflexivity;
        rewrite Hstamped by set_solver;
        rewrite Hsid_of in E3 |- *; apply id_of_present, E3. }
    split; [exact Hvrep|]. split; [exact Hvdata|]. split; [exact Hvsmp|].
    unfold Store.has_id. cbn [dict_lookup].
    split; [|split].
    + eexists. split; [exact Hvrep|].
      destruct (is_None (repertoire_id l)) eqn:E; [split; [reflexivity|exact Hstr']|].
      split; [exact E|]. rewrite Hrid_of in E |- *. apply id_of_present, E.
    + eexists. split; [exact Hvdata|].
      destruct (is_None (data_processing_id l)) eqn:E; [split; [reflexivity|exact Hstr']|].
      split; [exact E|]. rewrite Hdid_of in E |- *. apply id_of_present, E.
    + eexists. split; [exact Hvsmp|].
      destruct (is_None (sample_processing_id l)) eqn:E; [split; [reflexivity|exact Hstr']|].
      split; [exact E|]. rewrite Hsid_of in E |- *. apply id_of_present, E.
Qed.

End InsertRepertoire.

Lemma insert_rejects_known_files_witness :
  (∃ prints,
     Repertoire.repositoryInsertRepertoire Example.str
       (Example.parser false [Example.R1_D1] (PStr "new")) Example.new_same_file
     = (GetRepertoireIDs (PStr "ir_rearrangement_file_name") (PStr "a.tsv") :: prints,
        Returns PNone)
     ∧ Forall is_print prints)
  ∧ result (Repertoire.repositoryInsertRepertoire Example.str
              (Example.parser false [Example.R1_D1] (PStr "new"))
              Example.new_without_files)
    = Returns (PStr "new").
Proof.
  split.
  - destruct (insert_rejects_known_files Example.str
                (Example.parser false [Example.R1_D1] (PStr "new"))
                Example.new_same_file (PStr "a.tsv") eq_refl eq_refl)
      as [Hknown _].
    apply (Hknown eq_refl [PStr "id1"]); [reflexivity|discriminate].
  - destruct (insert_rejects_known_files Example.str
                (Example.parser false [Example.R1_D1] (PStr "new"))
                Example.new_without_files (PStr EmptyString) eq_refl eq_refl)
      as [_ Hnone].
    destruct (Hnone eq_refl) as [_ Hinserted].
    apply (Hinserted "ir_sequence_count"); reflexivity.
Defined.

Lemma insert_writes_back_missing_ids_witness :
  ∃ others created,
    Store.commit (Example.repo false [Example.R1_D1] (PStr "new")) [Example.R1_D1]
      (trace (Repertoire.repositoryInsertRepertoire Example.str
                (Example.parser false [Example.R1_D1] (PStr "new")) Example.new_S9))
    = others ++ [created]
    ∧ created !! "repertoire_id" = Some (PStr "new")
    ∧ created !! "data_processing_id" = Some (PStr "new")
    ∧ created !! "sample_processing_id" = Some (PStr "S9").
Proof.
  destruct (insert_writes_back_missing_ids Example.str
              (Example.parser false [Example.R1_D1] (PStr "new")) Example.new_S9
              (trace (Repertoire.repositoryInsertRepertoire Example.str
                        (Example.parser false [Example.R1_D1] (PStr "new"))
                        Example.new_S9))
              (PStr "new") eq_refl eq_refl eq_refl)
    as [_ Hstore].
  destruct (Hstore [Example.R1_D1] "_id" "repertoire_id" "data_processing_id"
              "sample_processing_id" "ir_sequence_count"
              eq_refl eq_refl eq_refl eq_refl eq_refl)
    as (others & created & Hcommit & _ & Hrep & Hdata & Hsmp & _).
  - compute_done.
  - intros f Hf. apply list_elem_of_In in Hf. simpl in Hf.
    destruct Hf as [<-|[<-|[<-|[]]]]; compute_done.
  - reflexivity.
  - discriminate.
  - exists others, created. repeat split; assumption.
Defined.

(** ** Where the code departs from its description *)

(** C2, at a stored record without [data_processing_id].  The incoming
    document shares [repertoire_id] and [sample_processing_id] with the
    one stored record and names no [data_processing_id]: no record is
    distinguishable from it.  The insert branch reports the conflict, but
    its report reads [rep[data_id_field]] without the test that the loop
    makes, so the method raises [KeyError] where it is to return [None].
    Nothing is written. *)
Theorem insert_duplicate_report_raises :
  let self := Example.parser false [Example.R1_bare] (PStr "new") in
  let l := Repertoire.locals_of self Example.new_R1_S1 in
  Repertoire.sharing_repertoire_id self Example.new_R1_S1 = [Example.R1_bare]
  ∧ forallb (λ rep, negb (Repertoire.distinguishable l rep)) [Example.R1_bare] = true
  ∧ result (Repertoire.repositoryInsertRepertoire Example.str self Example.new_R1_S1)
    = Raises (KeyError (PStr "data_processing_id"))
  ∧ forallb (λ e, negb (is_write e))
      (trace (Repertoire.repositoryInsertRepertoire Example.str self Example.new_R1_S1))
    = true.
Proof. vm_compute. repeat split; reflexivity. Qed.

(** C3, at an update whose triple no stored record has.  Two records
    share the [repertoire_id] of the incoming document and neither has
    its triple.  The loop ends with [link_repository_value] still [None]
    and the method, instead of failing, calls
    [updateRepertoire(link_field, None, document)] and returns the answer
    of the repository. *)
Theorem update_without_match_still_updates :
  let self := Example.parser true [Example.R1_D1; Example.R1_D2] PNone in
  let l := Repertoire.locals_of self Example.new_R1_D3 in
  Repertoire.sharing_repertoire_id self Example.new_R1_D3
  = [Example.R1_D1; Example.R1_D2]
  ∧ forallb (λ rep, negb (Repertoire.triple_equal l rep))
      [Example.R1_D1; Example.R1_D2] = true
  ∧ trace (Repertoire.repositoryInsertRepertoire Example.str self Example.new_R1_D3)
    = [GetRepertoireIDs (PStr "ir_rearrangement_file_name") (PStr "z.tsv");
       GetRepertoires (PStr "repertoire_id") (PStr "R1");
       UpdateRepertoire (PStr "_id") PNone
         (<["ir_updated_at" := PStr "2020-01-01T00:00:00Z"]> Example.new_R1_D3)]
  ∧ result (Repertoire.repositoryInsertRepertoire Example.str self Example.new_R1_D3)
    = Returns (updateRepertoire (repository self) (PStr "_id") PNone
                 (<["ir_updated_at" := PStr "2020-01-01T00:00:00Z"]> Example.new_R1_D3)).
Proof. vm_compute. repeat split; reflexivity. Qed.

(** ** The examples of the specification *)

Example getLocus_consistent :
  Rearrangement.getLocus ["IGHV3-23*01"; "IGHV1-2*01"] = ([], Returns "IGH").
Proof. reflexivity. Qed.

Example getLocus_inconsistent :
  Rearrangement.getLocus ["IGHV3-23*01"; "IGKV1-2*01"]
  = ([Rearrangement.warn_inconsistent_loci ["IGHV3-23*01"; "IGKV1-2*01"]],
     Returns "IGH").
Proof. reflexivity. Qed.

Example getLocus_not_a_locus :
  Rearrangement.getLocus ["XYZV1*01"]
  = ([Rearrangement.warn_non_IG_TR ["XYZV1*01"]], Returns "XYZ").
Proof. reflexivity. Qed.

Example setGene_two_alleles :
  Rearrangement.setGene remove_dups (PStr "IGHV3-23*01 IGHV3-23*02")
  = ["IGHV3-23*01"; "IGHV3-23*02"].
Proof. reflexivity. Qed.

Example setGene_restores_prefix :
  Rearrangement.setGene remove_dups (PStr "IGHV3-23|3-23D")
  = ["IGHV3-23"; "IGHV3-23D"].
Proof. reflexivity. Qed.

Example setGene_not_a_string :
  Rearrangement.setGene remove_dups nan = [].
Proof. reflexivity. Qed.

(** An existing record (R1, D1) and an incoming document (R1, D2): the
    insert goes through. *)
Example insert_distinguishable :
  result (Repertoire.repositoryInsertRepertoire Example.str
            (Example.parser false [Example.R1_D1] (PStr "new"))
            (Example.incoming [("repertoire_id", PStr "R1");
                               ("data_processing_id", PStr "D2")]))
  = Returns (PStr "new").
Proof. vm_compute. reflexivity. Qed.

(** The same without [data_processing_id]: a duplicate, nothing is
    written. *)
Example insert_duplicate :
  result (Repertoire.repositoryInsertRepertoire Example.str
            (Example.parser false [Example.R1_D1] (PStr "new"))
            Example.new_R1_S1)
  = Returns PNone
  ∧ forallb (λ e, negb (is_write e))
      (trace (Repertoire.repositoryInsertRepertoire Example.str
                (Example.parser false [Example.R1_D1] (PStr "new"))
                Example.new_R1_S1))
    = true.
Proof. vm_compute. split; reflexivity. Qed.

(** An update of (R1, D2, S1) among two records of R1 finds its target. *)
Example update_unique_target :
  ∃ doc,
    Repertoire.repositoryInsertRepertoire Example.str
      (Example.parser true [Example.R1_D1; Example.R1_D2] PNone)
      (Example.incoming [("repertoire_id", PStr "R1");
                         ("data_processing_id", PStr "D2");
                         ("sample_processing_id", PStr "S1")])
    = ([GetRepertoireIDs (PStr "ir_rearrangement_file_name") (PStr "z.tsv");
        GetRepertoires (PStr "repertoire_id") (PStr "R1");
        UpdateRepertoire (PStr "_id") (PStr "id2") doc],
       Returns (PStr "id2")).
Proof. eexists. vm_compute. reflexivity. Qed.

(** A batch that has every mandatory column is left as it is. *)
Example checkAIRRRequired_complete :
  Rearrangement.checkAIRRRequired (Example.parser false [] PNone) Example.batch
    [Example.mapping_row "sequence" "sequence" (PBool true) (PBool false);
     Example.mapping_row "cell_id" "cell_id" (PBool false) (PBool true)]
  = ([], Returns (true, Example.batch)).
Proof. reflexivity. Qed.

(** * Further properties of the loaders *)

(** ** Substrings of a junction *)

Lemma substring_length (i m : nat) (s : string) :
  (i + m ≤ String.length s)%nat →
  String.length (String.substring i m s) = m.
Proof.
  revert s. induction i as [|i IH]; intros s H.
  - apply substring_length_le. exact H.
  - destruct s as [|c s]; simpl in *; [lia|]. apply IH. lia.
Qed.

Lemma elem_of_slice_bounds (n i j : nat) :
  (i, j) ∈ Rearrangement.slice_bounds n ↔ (i < j ∧ j ≤ n)%nat.
Proof.
  unfold Rearrangement.slice_bounds.
  rewrite list_elem_of_In, in_flat_map. split.
  - intros (i' & Hi & Hj). apply list_elem_of_In, list_elem_of_fmap in Hj
      as (j' & [= -> ->] & Hj).
    apply in_seq in Hi. apply list_elem_of_In, in_seq in Hj. lia.
  - intros [Hij Hjn]. exists i. split; [apply in_seq; lia|].
    apply list_elem_of_In, list_elem_of_fmap. exists j. split; [reflexivity|].
    apply list_elem_of_In, in_seq. lia.
Qed.

(** X1. The substrings that [get_substring] collects from a string are
    exactly its contiguous pieces of more than three characters. *)
Theorem get_substring_pieces (s : string) :
  ∃ pieces,
    Rearrangement.get_substring (PStr s) = ([], Returns pieces)
    ∧ ∀ x, x ∈ pieces ↔
           ∃ i len, (3 < len)%nat ∧ (i + len ≤ String.length s)%nat
                    ∧ x = PStr (String.substring i len s).
Proof.
  eexists. split; [reflexivity|]. intros x.
  rewrite list_elem_of_filter, list_elem_of_fmap. split.
  - intros (Hlen & [i j] & -> & Hij). apply elem_of_slice_bounds in Hij.
    cbn [fst snd Rearrangement.py_slice Rearrangement.py_len] in *.
    exists i, (j - i)%nat.
    rewrite substring_length in Hlen by lia.
    repeat split; [lia|lia].
  - intros (i & len & Hlen & Hfit & ->).
    cbn [Rearrangement.py_len]. rewrite substring_length by lia.
    split; [lia|]. exists (i, (i + len)%nat). split.
    + cbn [fst snd Rearrangement.py_slice]. do 2 f_equal. lia.
    + apply elem_of_slice_bounds. lia.
Qed.

Lemma length_filter_fmap {A B} (P : B → Prop) `{∀ y, Decision (P y)}
    (f : A → B) (l : list A) :
  length (filter P (f <$> l)) = length (filter (λ x, P (f x)) l).
Proof.
  induction l as [|x l IH]; [reflexivity|].
  cbn [fmap list_fmap]. rewrite !filter_cons.
  destruct (decide (P (f x))); simpl; rewrite IH; reflexivity.
Qed.

Lemma length_filter_ext_in {A} (P Q : A → Prop)
    `{∀ x, Decision (P x)} `{∀ x, Decision (Q x)} (l : list A) :
  (∀ x, x ∈ l → P x ↔ Q x) →
  length (filter P l) = length (filter Q l).
Proof.
  induction l as [|x l IH]; intros Hext; [reflexivity|].
  rewrite !filter_cons.
  assert (Hx : P x ↔ Q x) by (apply Hext, list_elem_of_here).
  assert (Hl : length (filter P l) = length (filter Q l))
    by (apply IH; intros y Hy; apply Hext, list_elem_of_further, Hy).
  destruct (decide (P x)), (decide (Q x)); simpl; rewrite Hl; tauto || reflexivity.
Qed.

Lemma length_filter_flat_map {A B} (P : B → Prop) `{∀ y, Decision (P y)}
    (g : A → list B) (l : list A) :
  length (filter P (flat_map g l))
  = sum_list ((λ x, length (filter P (g x))) <$> l).
Proof.
  induction l as [|x l IH]; [reflexivity|].
  cbn [flat_map fmap list_fmap sum_list sum_list_with].
  rewrite filter_app, length_app, IH. reflexivity.
Qed.

(** Among [m] consecutive end points after [i], those more than three
    characters away. *)
Lemma count_long_slices (i m : nat) :
  length (filter (λ ij : nat * nat, (3 < ij.2 - ij.1)%nat)
            ((λ j, (i, j)) <$> seq (i + 1) m))
  = (m - 3)%nat.
Proof.
  induction m as [|m IH]; [reflexivity|].
  rewrite seq_S, fmap_app, filter_app, length_app, IH.
  cbn [fmap list_fmap]. rewrite filter_cons. cbn [fst snd].
  destruct (decide (3 < i + 1 + m - i)%nat); simpl; lia.
Qed.

Lemma sum_long_slices (a n : nat) :
  (2 * sum_list ((λ i, (a + n - i - 3)%nat) <$> seq a n) = (n - 3) * (n - 2))%nat.
Proof.
  revert a. induction n as [|n IH]; intros a; [reflexivity|].
  cbn [seq fmap list_fmap sum_list sum_list_with].
  assert (Hshift : (λ i, (a + S n - i - 3)%nat) <$> seq (S a) n
                   = (λ i, (S a + n - i - 3)%nat) <$> seq (S a) n).
  { apply list_fmap_ext. intros _ i _. lia. }
  rewrite Hshift. specialize (IH (S a)).
  destruct n as [|[|[|n]]]; simpl in *; nia.
Qed.

(** X2. A string of [n] characters has [(n - 3) * (n - 2) / 2] substrings
    of more than three characters, counted with repetition: none up to
    three characters, and a number that grows with the square of the
    length of the junction after that. *)
Theorem get_substring_count (s : string) :
  ∃ pieces,
    Rearrangement.get_substring (PStr s) = ([], Returns pieces)
    ∧ (2 * length pieces
       = (String.length s - 3) * (String.length s - 2))%nat.
Proof.
  eexists. split; [reflexivity|].
  rewrite length_filter_fmap.
  rewrite (length_filter_ext_in _ (λ ij : nat * nat, (3 < ij.2 - ij.1)%nat)).
  - unfold Rearrangement.slice_bounds.
    rewrite length_filter_flat_map.
    rewrite <- (sum_long_slices 0 (String.length s)). f_equal. f_equal.
    apply list_fmap_ext. intros _ i _. cbn [Nat.add].
    rewrite count_long_slices. reflexivity.
  - intros [i j] Hij. apply elem_of_slice_bounds in Hij.
    cbn [fst snd Rearrangement.py_slice Rearrangement.py_len] in *.
    rewrite substring_length by lia. reflexivity.
Qed.

(** ** Genes and families *)

Section GeneFamily.

Import Rearrangement.

Lemma first_seen_snoc (l : list string) (x : string) :
  first_seen (l ++ [x]) = append_new x (first_seen l).
Proof.
  unfold first_seen, append_new. rewrite reverse_snoc. cbn [remove_dups].
  destruct (decide_rel elem_of x (reverse l)) as [Hin|Hnot].
  - rewrite bool_decide_eq_true_2; [reflexivity|].
    rewrite elem_of_reverse, elem_of_remove_dups. exact Hin.
  - rewrite bool_decide_eq_false_2.
    + rewrite reverse_cons. reflexivity.
    + rewrite elem_of_reverse, elem_of_remove_dups. exact Hnot.
Qed.

Lemma foldl_append_new (g : string → string) (l : list string) :
  foldl (λ seen call, append_new (g call) seen) [] l = first_seen (g <$> l).
Proof.
  induction l as [|call l IH] using rev_ind; [reflexivity|].
  rewrite foldl_app, fmap_app. cbn [foldl fmap list_fmap].
  rewrite IH, first_seen_snoc. reflexivity.
Qed.

Lemma foldl_ext_step {A B} (f g : A → B → A) (l : list B) (a : A) :
  (∀ a b, f a b = g a b) → foldl f a l = foldl g a l.
Proof.
  intros Hext. revert a. induction l as [|b l IH]; intros a; [reflexivity|].
  cbn [foldl]. rewrite Hext. apply IH.
Qed.

Lemma NoDup_first_seen (l : list string) : NoDup (first_seen l).
Proof. unfold first_seen. rewrite reverse_Permutation. apply NoDup_remove_dups. Qed.

Lemma elem_of_first_seen (l : list string) (x : string) :
  x ∈ first_seen l ↔ x ∈ l.
Proof.
  unfold first_seen. rewrite elem_of_reverse, elem_of_remove_dups, elem_of_reverse.
  reflexivity.
Qed.

Lemma setGeneGene_eq (gene_array : list string) :
  setGeneGene gene_array = first_seen (gene_of <$> gene_array).
Proof.
  unfold setGeneGene. rewrite <- foldl_append_new. apply foldl_ext_step.
  intros seen call. unfold gene_of.
  destruct (re_search allele_prefix call); reflexivity.
Qed.

Lemma setGeneFamily_eq (gene_array : list string) :
  setGeneFamily gene_array = first_seen (family_of <$> gene_array).
Proof.
  unfold setGeneFamily. rewrite <- foldl_append_new. apply foldl_ext_step.
  intros seen call. unfold family_of.
  destruct (re_search family_prefix call); reflexivity.
Qed.

(** X3. [setGeneGene] and [setGeneFamily] give, for an array of calls, the
    genes (the families) of the calls without repetition, each at the
    place where it is first met. *)
Theorem setGeneGene_setGeneFamily_first_seen (gene_array : list string) :
  (setGeneGene gene_array = first_seen (gene_of <$> gene_array)
   ∧ NoDup (setGeneGene gene_array)
   ∧ ∀ gene, gene ∈ setGeneGene gene_array
             ↔ ∃ call, call ∈ gene_array ∧ gene = gene_of call)
  ∧ (setGeneFamily gene_array = first_seen (family_of <$> gene_array)
     ∧ NoDup (setGeneFamily gene_array)
     ∧ ∀ family, family ∈ setGeneFamily gene_array
                 ↔ ∃ call, call ∈ gene_array ∧ family = family_of call).
Proof.
  pose proof (setGeneGene_eq gene_array) as Hgene.
  pose proof (setGeneFamily_eq gene_array) as Hfamily.
  split; (split; [assumption|]); rewrite ?Hgene, ?Hfamily;
    (split; [apply NoDup_first_seen|]);
    intros x; rewrite elem_of_first_seen, list_elem_of_fmap;
    split; intros (call & H1 & H2); exists call; auto.
Qed.

End GeneFamily.

Section GeneFamilyShape.

Import Rearrangement.

Lemma prefix_refl (s : string) : String.prefix s s = true.
Proof.
  induction s as [|c s IH]; [reflexivity|]. simpl.
  destruct (Ascii.ascii_dec c c); [exact IH|congruence].
Qed.

Lemma prefix_cons (c : ascii) (s t : string) :
  String.prefix (String c s) (String c t) = String.prefix s t.
Proof. simpl. destruct (Ascii.ascii_dec c c); [reflexivity|congruence]. Qed.

Lemma allele_prefix_no_star (s : string) :
  str_contains "*" s = false → allele_prefix s = None.
Proof.
  induction s as [|c s IH]; [reflexivity|]. simpl.
  intros H. apply orb_false_iff in H as [Hc Hs].
  apply bool_decide_eq_false in Hc.
  rewrite bool_decide_eq_false_2 by congruence. rewrite (IH Hs). reflexivity.
Qed.

Lemma re_search_allele_no_star (s : string) :
  str_contains "*" s = false → re_search allele_prefix s = None.
Proof.
  induction s as [|c s IH]; [reflexivity|]. intros H.
  cbn [re_search]. rewrite (allele_prefix_no_star _ H).
  apply IH. simpl in H. apply orb_false_iff in H as [_ Hs]. exact Hs.
Qed.

Lemma allele_prefix_some (s g : string) :
  allele_prefix s = Some g →
  String.prefix g s = true ∧ str_contains "*" g = false.
Proof.
  revert g. induction s as [|c s IH]; intros g; [discriminate|]. simpl.
  destruct (bool_decide (c = "*"%char)) eqn:Hc.
  - intros [= <-]. split; reflexivity.
  - destruct (allele_prefix s) as [g'|]; [|discriminate].
    intros [= <-]. destruct (IH g' eq_refl) as [Hp Hn].
    destruct (Ascii.ascii_dec c c); [|congruence].
    split; [exact Hp|]. simpl.
    apply bool_decide_eq_false in Hc.
    rewrite bool_decide_eq_false_2 by congruence. exact Hn.
Qed.

Lemma gene_of_cases (call : string) :
  (allele_prefix call = None ∧ gene_of call = call
   ∧ str_contains "*" call = false)
  ∨ (∃ g, allele_prefix call = Some g ∧ gene_of call = g).
Proof.
  unfold gene_of. destruct (allele_prefix call) as [g|] eqn:E.
  - right. exists g. destruct call; cbn [re_search]; rewrite E; auto.
  - left. destruct (str_contains "*" call) eqn:Hstar.
    + exfalso. clear -E Hstar. induction call as [|c s IH]; [discriminate|].
      simpl in *. destruct (bool_decide (c = "*"%char)) eqn:Hc; [discriminate|].
      destruct (allele_prefix s); [discriminate|].
      apply bool_decide_eq_false in Hc.
      rewrite bool_decide_eq_false_2 in Hstar by congruence. auto.
    + rewrite (re_search_allele_no_star _ Hstar). auto.
Qed.

Lemma family_prefix_some (s f : string) :
  family_prefix s = Some f →
  String.prefix f s = true
  ∧ str_contains "*" f = false ∧ str_contains "-" f = false.
Proof.
  revert f. induction s as [|c s IH]; intros f; [discriminate|]. simpl.
  destruct (bool_decide (c = "*"%char)) eqn:Hstar; [intros [= <-]; auto|].
  destruct (bool_decide (c = "-"%char)) eqn:Hhyphen; [intros [= <-]; auto|].
  cbn [orb]. destruct (bool_decide (c = "^"%char)); [discriminate|].
  destruct (family_prefix s) as [f'|]; [|discriminate].
  intros [= <-]. destruct (IH f' eq_refl) as (Hp & Hs & Hh).
  destruct (Ascii.ascii_dec c c); [|congruence]. split; [exact Hp|].
  apply bool_decide_eq_false in Hstar, Hhyphen. simpl.
  rewrite !bool_decide_eq_false_2 by congruence. auto.
Qed.

Lemma re_search_family_some (s f : string) :
  re_search family_prefix s = Some f →
  str_contains "*" f = false ∧ str_contains "-" f = false.
Proof.
  induction s as [|c s IH]; cbn [re_search].
  - simpl. discriminate.
  - destruct (family_prefix (String c s)) as [f'|] eqn:E.
    + intros [= <-]. apply family_prefix_some in E. tauto.
    + exact IH.
Qed.

Lemma re_search_family_plain (s : string) :
  str_contains "*" s = false → str_contains "-" s = false →
  re_search family_prefix s = None.
Proof.
  induction s as [|c s IH]; [reflexivity|]. simpl str_contains.
  intros Hs Hh. apply orb_false_iff in Hs as [Hcs Hs], Hh as [Hch Hh].
  cbn [re_search]. rewrite (IH Hs Hh).
  destruct (family_prefix (String c s)) as [f|] eqn:E; [|reflexivity].
  exfalso. clear IH. revert f E.
  assert (Hplain : ∀ t f, str_contains "*" t = false →
            str_contains "-" t = false → family_prefix t ≠ Some f).
  { induction t as [|d t IHt]; intros f Ht1 Ht2; [discriminate|].
    simpl in *. apply orb_false_iff in Ht1 as [Hd1 Ht1], Ht2 as [Hd2 Ht2].
    apply bool_decide_eq_false in Hd1, Hd2.
    rewrite !bool_decide_eq_false_2 by congruence. cbn [orb].
    destruct (bool_decide (d = "^"%char)); [discriminate|].
    destruct (family_prefix t) as [f'|] eqn:Et; [|discriminate].
    exfalso. exact (IHt f' Ht1 Ht2 eq_refl). }
  intros f E. apply (Hplain (String c s) f); [simpl; rewrite Hcs, Hs; reflexivity
    |simpl; rewrite Hch, Hh; reflexivity|exact E].
Qed.

Lemma re_search_family_none (s : string) :
  re_search family_prefix s = None →
  str_contains "*" s = false ∧ str_contains "-" s = false.
Proof.
  induction s as [|c s IH]; [auto|]. cbn [re_search].
  destruct (family_prefix (String c s)) eqn:E; [discriminate|].
  intros Hrest. destruct (IH Hrest) as [Hs Hh]. simpl in E |- *.
  destruct (bool_decide (c = "*"%char)) eqn:Hc1; [discriminate|].
  destruct (bool_decide (c = "-"%char)) eqn:Hc2; [discriminate|].
  apply bool_decide_eq_false in Hc1, Hc2.
  rewrite !bool_decide_eq_false_2 by congruence. auto.
Qed.

Lemma family_of_shape (call : string) :
  str_contains "*" (family_of call) = false
  ∧ str_contains "-" (family_of call) = false.
Proof.
  unfold family_of. destruct (re_search family_prefix call) as [f|] eqn:E.
  - exact (re_search_family_some _ _ E).
  - exact (re_search_family_none _ E).
Qed.

Lemma re_search_anchored {A} (anchored : string → option A) (s : string) (m : A) :
  anchored s = Some m → re_search anchored s = Some m.
Proof. intros E. destruct s; cbn [re_search]; rewrite E; reflexivity. Qed.

Lemma gene_of_cons (c : ascii) (s : string) :
  c ≠ "*"%char → gene_of (String c s) = String c (gene_of s).
Proof.
  intros Hc. unfold gene_of. cbn [re_search allele_prefix].
  rewrite bool_decide_eq_false_2 by exact Hc.
  destruct (gene_of_cases s) as [(E & _ & Hno)|(g & E & _)]; rewrite E;
    cbn [fmap option_fmap option_map].
  - rewrite (re_search_allele_no_star _ Hno). reflexivity.
  - rewrite (re_search_anchored _ _ _ E). reflexivity.
Qed.

Lemma family_prefix_none_plain (s : string) :
  str_contains "^" s = false → family_prefix s = None →
  str_contains "*" s = false ∧ str_contains "-" s = false.
Proof.
  induction s as [|c s IH]; [auto|]. simpl str_contains.
  intros H. apply orb_false_iff in H as [Hc Hs].
  apply bool_decide_eq_false in Hc. cbn [family_prefix].
  destruct (bool_decide (c = "*"%char)) eqn:H1; [discriminate|].
  destruct (bool_decide (c = "-"%char)) eqn:H2; [discriminate|].
  cbn [orb]. rewrite (bool_decide_eq_false_2 (c = "^"%char)) by congruence.
  destruct (family_prefix s) as [f|] eqn:E; [discriminate|]. intros _.
  destruct (IH Hs eq_refl) as [Hs1 Hs2].
  apply bool_decide_eq_false in H1, H2.
  rewrite !bool_decide_eq_false_2 by congruence. auto.
Qed.

Lemma family_of_cons (c : ascii) (s : string) :
  str_contains "^" (String c s) = false →
  family_of (String c s)
  = if bool_decide (c = "*"%char) || bool_decide (c = "-"%char)
    then EmptyString else String c (family_of s).
Proof.
  simpl str_contains. intros H. apply orb_false_iff in H as [Hc Hs].
  apply bool_decide_eq_false in Hc.
  unfold family_of. cbn [re_search family_prefix].
  destruct (bool_decide (c = "*"%char) || bool_decide (c = "-"%char));
    [reflexivity|].
  rewrite (bool_decide_eq_false_2 (c = "^"%char)) by congruence.
  destruct (family_prefix s) as [f|] eqn:E; cbn [fmap option_fmap option_map].
  - rewrite (re_search_anchored _ _ _ E). reflexivity.
  - destruct (family_prefix_none_plain s Hs E) as [H1 H2].
    rewrite (re_search_family_plain s H1 H2). reflexivity.
Qed.

(** Without a caret in the call, the family is a prefix of the gene. *)
Lemma family_prefix_of_gene (call : string) :
  str_contains "^" call = false →
  String.prefix (family_of call) (gene_of call) = true.
Proof.
  induction call as [|c s IH]; [reflexivity|]. intros H.
  rewrite (family_of_cons c s H).
  simpl str_contains in H. apply orb_false_iff in H as [Hc Hs].
  destruct (bool_decide (c = "*"%char)) eqn:Hstar;
    [destruct (gene_of (String c s)); reflexivity|].
  destruct (bool_decide (c = "-"%char)) eqn:Hhyphen;
    [destruct (gene_of (String c s)); reflexivity|].
  cbn [orb]. apply bool_decide_eq_false in Hstar.
  rewrite (gene_of_cons c s Hstar), prefix_cons. exact (IH Hs).
Qed.

(** X4. The gene that [setGeneGene] keeps of a call is a prefix of the
    call and has no star (it is the call itself when the call has none);
    the family that [setGeneFamily] keeps has neither a star nor a
    hyphen, and for a call without a caret it is a prefix of the gene. *)
Theorem gene_family_shape (call : string) :
  String.prefix (gene_of call) call = true
  ∧ str_contains "*" (gene_of call) = false
  ∧ (str_contains "*" call = false → gene_of call = call)
  ∧ str_contains "*" (family_of call) = false
  ∧ str_contains "-" (family_of call) = false
  ∧ (str_contains "^" call = false →
     String.prefix (family_of call) (gene_of call) = true).
Proof.
  destruct (family_of_shape call) as [Hs Hh].
  pose proof (family_prefix_of_gene call) as Hfamily.
  destruct (gene_of_cases call) as [(E & Hgene & Hno)|(g & E & Hgene)].
  - rewrite Hgene in *.
    split; [apply prefix_refl|]. split; [exact Hno|]. split; [reflexivity|].
    split; [exact Hs|]. split; [exact Hh|]. exact Hfamily.
  - destruct (allele_prefix_some _ _ E) as [Hp Hn]. rewrite Hgene in *.
    split; [exact Hp|]. split; [exact Hn|].
    split.
    { intros Hno. rewrite (allele_prefix_no_star _ Hno) in E. discriminate E. }
    split; [exact Hs|]. split; [exact Hh|]. exact Hfamily.
Qed.

End GeneFamilyShape.

Lemma gene_family_shape_witness :
  Rearrangement.gene_of "IGHV1-2" = "IGHV1-2"
  ∧ String.prefix (Rearrangement.family_of "IGHV3-23*01")
      (Rearrangement.gene_of "IGHV3-23*01") = true.
Proof.
  split.
  - apply (gene_family_shape "IGHV1-2"). reflexivity.
  - apply (gene_family_shape "IGHV3-23*01"). reflexivity.
Defined.

(** A caret before the first star or hyphen makes the family start after
    it: the pattern of [setGeneFamily] excludes the caret from the run. *)
Example family_after_caret :
  Rearrangement.setGeneFamily ["A^B-C"] = ["B"].
Proof. reflexivity. Qed.

Section GeneFamilyIdempotent.

Import Rearrangement.

Lemma remove_dups_NoDup (l : list string) : NoDup l → remove_dups l = l.
Proof.
  induction 1 as [|x l Hx _ IH]; [reflexivity|]. cbn [remove_dups].
  destruct (decide_rel elem_of x l); [contradiction|]. rewrite IH. reflexivity.
Qed.

Lemma first_seen_NoDup (l : list string) : NoDup l → first_seen l = l.
Proof.
  intros Hl. unfold first_seen. rewrite remove_dups_NoDup.
  - apply reverse_involutive.
  - rewrite reverse_Permutation. exact Hl.
Qed.

Lemma fmap_fixed (f : string → string) (l : list string) :
  (∀ x, x ∈ l → f x = x) → f <$> l = l.
Proof.
  induction l as [|x l IH]; intros Hfix; [reflexivity|].
  cbn [fmap list_fmap]. rewrite (Hfix x) by apply list_elem_of_here.
  f_equal. apply IH. intros y Hy. apply Hfix, list_elem_of_further, Hy.
Qed.

Lemma gene_of_fixed (call : string) : gene_of (gene_of call) = gene_of call.
Proof.
  assert (Hno : str_contains "*" (gene_of call) = false).
  { destruct (gene_of_cases call) as [(_ & -> & Hno)|(g & E & ->)];
      [exact Hno|]. apply (allele_prefix_some _ _ E). }
  unfold gene_of at 1. rewrite (re_search_allele_no_star _ Hno). reflexivity.
Qed.

(** X5. [setGeneGene] and [setGeneFamily] are idempotent: applied to
    their own result they change nothing. *)
Theorem setGeneGene_setGeneFamily_idempotent (gene_array : list string) :
  setGeneGene (setGeneGene gene_array) = setGeneGene gene_array
  ∧ setGeneFamily (setGeneFamily gene_array) = setGeneFamily gene_array.
Proof.
  split.
  - rewrite (setGeneGene_eq (setGeneGene gene_array)), fmap_fixed.
    + apply first_seen_NoDup. rewrite setGeneGene_eq. apply NoDup_first_seen.
    + intros g Hin. rewrite setGeneGene_eq, elem_of_first_seen in Hin.
      apply list_elem_of_fmap in Hin as (call & -> & _).
      apply gene_of_fixed.
  - rewrite (setGeneFamily_eq (setGeneFamily gene_array)), fmap_fixed.
    + apply first_seen_NoDup. rewrite setGeneFamily_eq. apply NoDup_first_seen.
    + intros f Hin. rewrite setGeneFamily_eq, elem_of_first_seen in Hin.
      apply list_elem_of_fmap in Hin as (call & -> & _).
      destruct (family_of_shape call) as [Hs Hh].
      unfold family_of at 1. rewrite (re_search_family_plain _ Hs Hh). reflexivity.
Qed.

End GeneFamilyIdempotent.

(** ** Locus derivation, the remaining cases *)



(** X6. When no entry of the array has more than three characters
    (the empty array included), [getLocus] returns the empty string and
    prints one warning of an invalid call per entry, and nothing else. *)
Theorem getLocus_no_long_entry (v_call_array : list string) :
  Forall (λ s, (String.length s ≤ 3)%nat) v_call_array →
  Rearrangement.getLocus v_call_array
  = (Rearrangement.warn_invalid_v_call <$> v_call_array, Returns EmptyString).
Proof.
  intros Hshort. unfold Rearrangement.getLocus.
  rewrite <- (app_nil_r v_call_array) at 2.
  rewrite (getLocus_skips_short v_call_array v_call_array [] Hshort).
  cbn [for_each]. unfold ret at 1 2. cbn [fst snd]. rewrite ?app_nil_r.
  rewrite bind_pair. unfold Rearrangement.non_IG_TR, when.
  cbn [String.length Nat.eqb andb]. eff. rewrite ?app_nil_r. reflexivity.
Qed.

Lemma getLocus_no_long_entry_witness :
  Rearrangement.getLocus ["IG"; "TRB"]
  = ([Rearrangement.warn_invalid_v_call "IG";
      Rearrangement.warn_invalid_v_call "TRB"], Returns EmptyString).
Proof.
  apply (getLocus_no_long_entry ["IG"; "TRB"]).
  repeat constructor.
Defined.


(** ** Field types, for the keys that have an AIRR type *)

Lemma pyval_list_ind (P : pyval → Prop) :
  P PNone → (∀ b, P (PBool b)) → (∀ n, P (PInt n)) → (∀ f, P (PFloat f)) →
  (∀ s, P (PStr s)) → (∀ l, Forall P l → P (PList l)) →
  ∀ v, P v.
Proof.
  intros HNone HBool HInt HFloat HStr HList.
  fix IH 1. intros [| b | n | f | s | l].
  - exact HNone.
  - apply HBool.
  - apply HInt.
  - apply HFloat.
  - apply HStr.
  - apply HList. induction l as [|v l IHl]; constructor; [apply IH|exact IHl].
Qed.

Section FieldTypes.

Import Repertoire.

Variable self : Parser.
Variable key : string.
Variable strict : bool.

Hypothesis has_type : is_None (airr_type self key) = false.

(** The loop over the elements of a list value, given what the method
    does on each element. *)
Lemma validAIRRFieldType_elements (elements : list pyval) (valid_type : bool) :
  Forall (λ element,
            ∃ t, validAIRRFieldType self key element strict
                 = (t, Returns (accepts (airr_type self key) (airr_nullable self key)
                                  (airr_is_array self key) element))
                 ∧ (verbose self = false → t = [])) elements →
  ∃ t,
    (fix each (elements : list pyval) (valid_type : bool) : Eff bool :=
       match elements with
       | [] => ret valid_type
       | element :: elements' =>
           bind (validAIRRFieldType self key element strict)
             (λ ok, each elements' (if ok then valid_type else false))
       end) elements valid_type
    = (t, Returns (valid_type
                   && forallb (accepts (airr_type self key) (airr_nullable self key)
                                 (airr_is_array self key)) elements))
    ∧ (verbose self = false → t = []).
Proof.
  intros Hall. revert valid_type.
  induction Hall as [|element elements (t & Hrun & Hquiet) _ IH]; intros valid_type.
  - exists []. cbn [forallb]. rewrite andb_true_r. split; reflexivity.
  - rewrite Hrun. rewrite bind_pair.
    destruct (IH (if accepts (airr_type self key) (airr_nullable self key)
                       (airr_is_array self key) element
                  then valid_type else false)) as (t' & Hrest & Hquiet').
    rewrite Hrest. exists (t ++ t'). split.
    + rewrite after_pair. f_equal. f_equal. cbn [forallb].
      destruct (accepts _ _ _ element), valid_type; reflexivity.
    + intros Hv. rewrite (Hquiet Hv), (Hquiet' Hv). reflexivity.
Qed.

End FieldTypes.
